(** * librelay: the relay-board dispatcher of [librelay/librelay.py]

    A shallow embedding of the module: the three enumerations, the
    [LibRelay02] worker object with its serial handle and its two queues,
    and the methods [setup], [quit], [version], [status], [_analyse] and
    [run].  Python values are a small inductive type; an exception is an
    outcome; the calls the object makes to the outside (serial port, sleep,
    print) are recorded in a trace. *)

From Stdlib Require Import String Ascii List ZArith Bool Lia.
From Stdlib.Strings Require Import Byte.
Import ListNotations.

Set Warnings "-register-all".

Local Open Scope string_scope.
Local Open Scope list_scope.

(* ------------------------------------------------------------------ *)
(** ** Enumerations *)

(** [class APIAction(Enum)] *)
Module APIAction.
Inductive t := UNKNOWN | SET_STATE | QUERY.

Definition value (a : t) : Z :=
  match a with UNKNOWN => 0 | SET_STATE => 1 | QUERY => 2 end.

Definition name (a : t) : string :=
  match a with
  | UNKNOWN => "UNKNOWN" | SET_STATE => "SET_STATE" | QUERY => "QUERY"
  end.
End APIAction.

(** [class RelayStates(Enum)]: the values sent to the relay to set a state. *)
Module RelayStates.
Inductive t := ALL_ON | ALL_OFF | ONE_ON | ONE_OFF | TWO_ON | TWO_OFF.

Definition value (s : t) : Z :=
  match s with
  | ALL_ON => 100 | ALL_OFF => 110
  | ONE_ON => 101 | ONE_OFF => 111
  | TWO_ON => 102 | TWO_OFF => 112
  end.

Definition name (s : t) : string :=
  match s with
  | ALL_ON => "ALL_ON" | ALL_OFF => "ALL_OFF"
  | ONE_ON => "ONE_ON" | ONE_OFF => "ONE_OFF"
  | TWO_ON => "TWO_ON" | TWO_OFF => "TWO_OFF"
  end.

(** Iteration order of [for member in RelayStates]: definition order. *)
Definition members : list t :=
  [ALL_ON; ALL_OFF; ONE_ON; ONE_OFF; TWO_ON; TWO_OFF].
End RelayStates.

(** [class RelayQueries(Enum)]: the values sent to the relay to get info. *)
Module RelayQueries.
Inductive t := VERSION | STATUS.

Definition value (q : t) : Z :=
  match q with VERSION => 90 | STATUS => 91 end.

Definition name (q : t) : string :=
  match q with VERSION => "VERSION" | STATUS => "STATUS" end.
End RelayQueries.

(** A protocol symbol is a member of either enumeration. *)
Inductive Symbol :=
| State (s : RelayStates.t)
| Query (q : RelayQueries.t).

Definition Symbol_value (x : Symbol) : Z :=
  match x with
  | State s => RelayStates.value s
  | Query q => RelayQueries.value q
  end.

(* ------------------------------------------------------------------ *)
(** ** Python values and exceptions *)

(** The exceptions (all subclasses of [Exception]) that the module meets. *)
Inductive exn :=
| TypeError | KeyError | AttributeError | ValueError | NameError
| StructError                (* struct.error *)
| Empty                      (* queue.Empty *)
| SerialException            (* serial.SerialException *)
| OtherError (what : string).

Inductive result (A : Type) :=
| Ok (a : A)
| Err (e : exn).
Arguments Ok {A} a.
Arguments Err {A} e.

(** A [Queue] object is known by its identity. *)
Definition qref := nat.

Inductive pyval :=
| PNone
| PBool (b : bool)
| PInt (z : Z)
| PStr (s : string)
| PBytes (bs : list byte)
| PList (l : list pyval)
| PDict (kv : list (pyval * pyval))
| PQueue (q : qref).

(** [str.lower()]: strings are byte strings, and the letters A..Z are
    the ones that change. *)
Definition lower_ascii (c : ascii) : ascii :=
  let n := nat_of_ascii c in
  if andb (Nat.leb 65 n) (Nat.leb n 90) then ascii_of_nat (n + 32) else c.

Fixpoint lower (s : string) : string :=
  match s with
  | EmptyString => EmptyString
  | String c s' => String (lower_ascii c) (lower s')
  end.

Definition lower_byte (b : byte) : byte :=
  byte_of_ascii (lower_ascii (ascii_of_byte b)).

(** [s in t] for two strings: [s] occurs in [t]. *)
Fixpoint substring (s t : string) : bool :=
  if prefix s t then true
  else match t with
       | EmptyString => false
       | String _ t' => substring s t'
       end.

Definition is_str (s : string) (v : pyval) : bool :=
  match v with
  | PStr t => String.eqb s t
  | _ => false
  end.

(** [s in c] for a string literal [s]: substring of a string, element of a
    list, key of a dict; anything else has no membership test. *)
Definition py_in (s : string) (c : pyval) : result bool :=
  match c with
  | PStr t => Ok (substring s t)
  | PList l => Ok (existsb (is_str s) l)
  | PDict kv => Ok (existsb (fun p => is_str s (fst p)) kv)
  | PBytes _ => Err TypeError
  | PNone | PBool _ | PInt _ | PQueue _ => Err TypeError
  end.

Fixpoint dict_get (s : string) (kv : list (pyval * pyval)) : option pyval :=
  match kv with
  | [] => None
  | (k, v) :: kv' => if is_str s k then Some v else dict_get s kv'
  end.

(** [c[s]] for a string literal [s]. *)
Definition py_getitem (c : pyval) (s : string) : result pyval :=
  match c with
  | PDict kv =>
      match dict_get s kv with
      | Some v => Ok v
      | None => Err KeyError
      end
  | PStr _ | PList _ | PBytes _ => Err TypeError
  | PNone | PBool _ | PInt _ | PQueue _ => Err TypeError
  end.

(** [v.lower()]: only [str] and [bytes] have the method. *)
Definition py_lower (v : pyval) : result pyval :=
  match v with
  | PStr s => Ok (PStr (lower s))
  | PBytes bs => Ok (PBytes (map lower_byte bs))
  | _ => Err AttributeError
  end.

(** [struct.pack('!B', v)]: one unsigned byte, [struct.error] out of range. *)
Definition struct_pack_B (v : Z) : result (list byte) :=
  if andb (Z.leb 0 v) (Z.leb v 255) then
    match Byte.of_N (Z.to_N v) with
    | Some b => Ok [b]
    | None => Err StructError
    end
  else Err StructError.

(** The wire encoding of a symbol: what the methods hand to [write]. *)
Definition encode (x : Symbol) : result (list byte) :=
  struct_pack_B (Symbol_value x).

(* ------------------------------------------------------------------ *)
(** ** Queues *)

(** A [queue.Queue()]: its items, oldest first, and the count of
    unfinished tasks, which [put] increments and [task_done] decrements.
    The queue has no bound, so [put] never waits. *)
Record queue := mkQueue {
  items : list pyval;
  unfinished : nat
}.

Definition Queue_empty (q : queue) : bool :=
  match items q with [] => true | _ => false end.

Definition Queue_put (v : pyval) (q : queue) : queue :=
  mkQueue (items q ++ [v]) (S (unfinished q)).

(** [q.get(block=False)] *)
Definition Queue_get_nowait (q : queue) : result pyval * queue :=
  match items q with
  | [] => (Err Empty, q)
  | v :: rest => (Ok v, mkQueue rest (unfinished q))
  end.

(** [q.task_done()]: [ValueError] when called more often than [put]. *)
Definition Queue_task_done (q : queue) : result unit * queue :=
  match unfinished q with
  | O => (Err ValueError, q)
  | S n => (Ok tt, mkQueue (items q) n)
  end.

(** The constants of [serial] that [setup] passes. *)
Inductive parity := PARITY_NONE | PARITY_EVEN | PARITY_ODD.

(** What the object does to the outside, in the order it does it. *)
Inductive event :=
| EvOpen (device : string) (bauds : Z) (par : parity) (bytesize stopbits : Z)
| EvWrite (data : list byte)
| EvRead (size : Z)
| EvClose
| EvSleep (ms : Z)
| EvPrint (e : exn).

(* ------------------------------------------------------------------ *)
(** ** The dispatcher object *)

Section Dispatcher.

(** The serial library is outside the module: a [serial.Serial] object
    has some state, its constructor opens the port or raises, and its
    [write], [read] and [close] return a value or raise.  Every call is
    taken to come back: a device that never answers is not modelled. *)
Context {Serial : Type}.
Variable serial_Serial :
  string -> Z -> parity -> Z -> Z -> result Serial.
Variable Serial_write : Serial -> list byte -> result pyval * Serial.
Variable Serial_read : Serial -> Z -> result pyval * Serial.
Variable Serial_close : Serial -> result unit * Serial.

(** The fields that [__init__] sets, the [Queue] objects that exist
    (the two fields hold references into them), and the trace. *)
Record dispatcher := mkDispatcher {
  _device : string;
  _bauds : Z;
  _running : bool;
  _filedesc : option Serial;
  _input_queue : option qref;
  _output_queue : option qref;
  queues : qref -> queue;
  trace : list event
}.

Definition with_device (x : string) (d : dispatcher) : dispatcher :=
  mkDispatcher x (_bauds d) (_running d) (_filedesc d)
               (_input_queue d) (_output_queue d) (queues d) (trace d).
Definition with_bauds (x : Z) (d : dispatcher) : dispatcher :=
  mkDispatcher (_device d) x (_running d) (_filedesc d)
               (_input_queue d) (_output_queue d) (queues d) (trace d).
Definition with_running (x : bool) (d : dispatcher) : dispatcher :=
  mkDispatcher (_device d) (_bauds d) x (_filedesc d)
               (_input_queue d) (_output_queue d) (queues d) (trace d).
Definition with_filedesc (x : option Serial) (d : dispatcher) : dispatcher :=
  mkDispatcher (_device d) (_bauds d) (_running d) x
               (_input_queue d) (_output_queue d) (queues d) (trace d).
Definition with_input_queue (x : option qref) (d : dispatcher) : dispatcher :=
  mkDispatcher (_device d) (_bauds d) (_running d) (_filedesc d)
               x (_output_queue d) (queues d) (trace d).
Definition with_output_queue (x : option qref) (d : dispatcher) : dispatcher :=
  mkDispatcher (_device d) (_bauds d) (_running d) (_filedesc d)
               (_input_queue d) x (queues d) (trace d).
Definition with_queues (x : qref -> queue) (d : dispatcher) : dispatcher :=
  mkDispatcher (_device d) (_bauds d) (_running d) (_filedesc d)
               (_input_queue d) (_output_queue d) x (trace d).
Definition with_trace (x : list event) (d : dispatcher) : dispatcher :=
  mkDispatcher (_device d) (_bauds d) (_running d) (_filedesc d)
               (_input_queue d) (_output_queue d) (queues d) x.

Definition log (e : event) (d : dispatcher) : dispatcher :=
  with_trace (trace d ++ [e]) d.

(** Replace the queue object [r]. *)
Definition store (r : qref) (q : queue) (d : dispatcher) : dispatcher :=
  with_queues (fun r' => if Nat.eqb r' r then q else queues d r') d.

(** *** Outcomes

    A call returns, raises, stays blocked for ever in [Queue.get] on an
    empty queue (nobody else puts in this model), or, for the loops, has
    not finished within the steps it was given. *)
Inductive outcome (A : Type) :=
| Ret (a : A) (d : dispatcher)
| Raise (e : exn) (d : dispatcher)
| Block (d : dispatcher)
| Fuel.
Arguments Ret {A} a d.
Arguments Raise {A} e d.
Arguments Block {A} d.
Arguments Fuel {A}.

Definition M (A : Type) : Type := dispatcher -> outcome A.

Definition ret {A} (a : A) : M A := fun d => Ret a d.
Definition raise {A} (e : exn) : M A := fun d => Raise e d.
Definition bind {A B} (m : M A) (k : A -> M B) : M B :=
  fun d =>
    match m d with
    | Ret a d' => k a d'
    | Raise e d' => Raise e d'
    | Block d' => Block d'
    | Fuel => Fuel
    end.
Definition lift {A} (r : result A) : M A :=
  match r with Ok a => ret a | Err e => raise e end.
Definition get_field {A} (f : dispatcher -> A) : M A := fun d => Ret (f d) d.
Definition modify (f : dispatcher -> dispatcher) : M unit :=
  fun d => Ret tt (f d).

(** [try: m  except Exception as e: h e] *)
Definition try_except {A} (m : M A) (h : exn -> M A) : M A :=
  fun d =>
    match m d with
    | Raise e d' => h e d'
    | o => o
    end.

Notation "x <- m ;; k" := (bind m (fun x => k))
  (at level 100, m at next level, right associativity).
Notation "m ;;; k" := (bind m (fun _ => k))
  (at level 100, right associativity).

Definition print (e : exn) : M unit := modify (log (EvPrint e)).
Definition time_sleep (ms : Z) : M unit := modify (log (EvSleep ms)).

(** *** Calls on the fields

    A field that is still [None] has no method: [AttributeError]. *)

Definition filedesc_write (data : list byte) : M pyval :=
  fun d =>
    match _filedesc d with
    | None => Raise AttributeError d
    | Some s =>
        let (r, s') := Serial_write s data in
        let d' := log (EvWrite data) (with_filedesc (Some s') d) in
        match r with Ok v => Ret v d' | Err e => Raise e d' end
    end.

Definition filedesc_read (size : Z) : M pyval :=
  fun d =>
    match _filedesc d with
    | None => Raise AttributeError d
    | Some s =>
        let (r, s') := Serial_read s size in
        let d' := log (EvRead size) (with_filedesc (Some s') d) in
        match r with Ok v => Ret v d' | Err e => Raise e d' end
    end.

Definition filedesc_close : M unit :=
  fun d =>
    match _filedesc d with
    | None => Raise AttributeError d
    | Some s =>
        let (r, s') := Serial_close s in
        let d' := log EvClose (with_filedesc (Some s') d) in
        match r with Ok v => Ret v d' | Err e => Raise e d' end
    end.

(** [q.empty()] *)
Definition q_empty (q : option qref) : M bool :=
  fun d =>
    match q with
    | None => Raise AttributeError d
    | Some r => Ret (Queue_empty (queues d r)) d
    end.

(** [q.get(block=False)] *)
Definition q_get_nowait (q : option qref) : M pyval :=
  fun d =>
    match q with
    | None => Raise AttributeError d
    | Some r =>
        let (v, q') := Queue_get_nowait (queues d r) in
        match v with
        | Ok v => Ret v (store r q' d)
        | Err e => Raise e (store r q' d)
        end
    end.

(** [q.task_done()] *)
Definition q_task_done (q : option qref) : M unit :=
  fun d =>
    match q with
    | None => Raise AttributeError d
    | Some r =>
        let (v, q') := Queue_task_done (queues d r) in
        match v with
        | Ok v => Ret v (store r q' d)
        | Err e => Raise e (store r q' d)
        end
    end.

(** [q.get()]: waits while the queue is empty. *)
Definition q_get (q : option qref) : M pyval :=
  fun d =>
    match q with
    | None => Raise AttributeError d
    | Some r =>
        match Queue_get_nowait (queues d r) with
        | (Ok v, q') => Ret v (store r q' d)
        | (Err _, _) => Block d
        end
    end.

(** [q.put(v)] *)
Definition q_put (q : option qref) (v : pyval) : M unit :=
  fun d =>
    match q with
    | None => Raise AttributeError d
    | Some r => Ret tt (store r (Queue_put v (queues d r)) d)
    end.

(** *** Methods *)

(** The function [__make_command_fct] returns for [value]. *)
Definition tmp_fct (value : Z) : M pyval :=
  to_write <- lift (struct_pack_B value) ;;
  res <- filedesc_write to_write ;;
  time_sleep 100 ;;;
  ret res.

(** [_populate_relay_states_apis]: for each member of [RelayStates], in
    order, [setattr] binds the lowered name to [tmp_fct] of its value.  The
    attributes it sets are the same at every call, so they are kept as the
    table [populated], which [getattr_self] reads, and the call leaves the
    fields alone. *)
Definition populated : list (string * RelayStates.t) :=
  map (fun member => (lower (RelayStates.name member), member))
      RelayStates.members.

Definition _populate_relay_states_apis : M pyval := ret PNone.

(** [__init__]: [super().__init__()] touches none of the fields below. *)
Definition __init__ (device : string) (bauds : Z) : M pyval :=
  modify (with_device device) ;;;
  modify (with_bauds bauds) ;;;
  modify (with_running true) ;;;
  modify (with_filedesc None) ;;;
  modify (with_input_queue None) ;;;
  modify (with_output_queue None) ;;;
  _populate_relay_states_apis ;;;
  ret PNone.

Definition input_queue : M pyval :=
  q <- get_field _input_queue ;;
  ret (match q with Some r => PQueue r | None => PNone end).

Definition set_input_queue (q : qref) : M pyval :=
  modify (with_input_queue (Some q)) ;;; ret PNone.

Definition output_queue : M pyval :=
  q <- get_field _output_queue ;;
  ret (match q with Some r => PQueue r | None => PNone end).

Definition set_output_queue (q : qref) : M pyval :=
  modify (with_output_queue (Some q)) ;;; ret PNone.

Definition setup : M pyval :=
  fun d =>
    let d1 := log (EvOpen (_device d) (_bauds d) PARITY_NONE 8 1) d in
    match serial_Serial (_device d) (_bauds d) PARITY_NONE 8 1 with
    | Ok s => Ret (PBool true) (with_filedesc (Some s) d1)
    | Err e => (print e ;;; ret (PBool false)) d1
    end.

(** [logger] is a name the module never binds. *)
Definition logger_warning (e : exn) : M unit := raise NameError.

(** The [while] loop of [__clear_queue]; [true] from the [try] means the
    [except] branch, with its [continue], was not taken. *)
Fixpoint clear_loop (fuel : nat) (q : option qref) : M unit :=
  match fuel with
  | O => fun _ => Fuel
  | S fuel' =>
      e <- q_empty q ;;
      if e then ret tt
      else
        got <- try_except (q_get_nowait q ;;; ret true)
                          (fun e => logger_warning e ;;; ret false) ;;
        if got then q_task_done q ;;; clear_loop fuel' q
        else clear_loop fuel' q
  end.

(** Each turn of the loop removes an item or raises: one step per item,
    and one for the last test, are enough ([__clear_queue_total]). *)
Definition __clear_queue (q : option qref) : M unit :=
  fun d =>
    let n := match q with
             | Some r => List.length (items (queues d r))
             | None => O
             end in
    clear_loop (S n) q d.

Definition quit : M pyval :=
  modify (with_running false) ;;;
  q <- get_field _input_queue ;;
  __clear_queue q ;;;
  filedesc_close ;;;
  ret PNone.

Definition version : M pyval :=
  to_write <- lift (struct_pack_B (RelayQueries.value RelayQueries.VERSION)) ;;
  filedesc_write to_write ;;;
  time_sleep 100 ;;;
  res <- filedesc_read 2 ;;
  ret res.

Definition status : M pyval :=
  to_write <- lift (struct_pack_B (RelayQueries.value RelayQueries.STATUS)) ;;
  filedesc_write to_write ;;;
  time_sleep 100 ;;;
  res <- filedesc_read 1 ;;
  ret res.

(** *** Attributes of the object

    What [getattr(self, name)] finds among the names this module
    defines: the fields and the functions [setattr] put in the instance,
    then the methods of the class ([__clear_queue] under its mangled
    name). *)
Inductive attribute :=
| a_device | a_bauds | a_running | a_filedesc
| a_input_queue_field | a_output_queue_field
| a_api (s : RelayStates.t)
| a_init | a_input_queue | a_set_input_queue
| a_output_queue | a_set_output_queue
| a_setup | a_clear_queue | a_quit | a_version | a_status
| a_populate | a_analyse | a_run.

Definition instance_dict : list (string * attribute) :=
  [ ("_device", a_device); ("_bauds", a_bauds); ("_running", a_running);
    ("_filedesc", a_filedesc); ("_input_queue", a_input_queue_field);
    ("_output_queue", a_output_queue_field) ]
  ++ map (fun p => (fst p, a_api (snd p))) populated.

Definition class_dict : list (string * attribute) :=
  [ ("__init__", a_init);
    ("input_queue", a_input_queue);
    ("set_input_queue", a_set_input_queue);
    ("output_queue", a_output_queue);
    ("set_output_queue", a_set_output_queue);
    ("setup", a_setup);
    ("_LibRelay02__clear_queue", a_clear_queue);
    ("quit", a_quit);
    ("version", a_version);
    ("status", a_status);
    ("_populate_relay_states_apis", a_populate);
    ("_analyse", a_analyse);
    ("run", a_run) ].

Fixpoint assoc {A} (name : string) (l : list (string * A)) : option A :=
  match l with
  | [] => None
  | (k, a) :: l' => if String.eqb name k then Some a else assoc name l'
  end.

Definition own (name : string) : option attribute :=
  match assoc name instance_dict with
  | Some a => Some a
  | None => assoc name class_dict
  end.

(** Calling an attribute with no argument.  A field is not callable and
    a method that wants an argument misses it: [TypeError].  [self_run]
    is what [run] does, for the attribute [run]. *)
Definition call (self_run : M pyval) (a : attribute) : M pyval :=
  match a with
  | a_device | a_bauds | a_running | a_filedesc
  | a_input_queue_field | a_output_queue_field => raise TypeError
  | a_api s => tmp_fct (RelayStates.value s)
  | a_init => __init__ "/dev/ttyACM0" 115200   (* the default arguments *)
  | a_input_queue => input_queue
  | a_output_queue => output_queue
  | a_set_input_queue | a_set_output_queue
  | a_clear_queue | a_analyse => raise TypeError
  | a_setup => setup
  | a_quit => quit
  | a_version => version
  | a_status => status
  | a_populate => _populate_relay_states_apis
  | a_run => self_run
  end.

(** The names that come from [threading.Thread], [object] and the class
    machinery are outside the module: [inherited name] is what calling
    such an attribute with no argument does, [None] when neither the
    module nor its bases define [name]. *)
Variable inherited : string -> option (M pyval).

(** [getattr(self, n)], as the function that calls what was found. *)
Definition getattr_self (self_run : M pyval) (n : pyval)
  : result (M pyval) :=
  match n with
  | PStr name =>
      match own name with
      | Some a => Ok (call self_run a)
      | None =>
          match inherited name with
          | Some m => Ok m
          | None => Err AttributeError
          end
      end
  | _ => Err TypeError
  end.

(** The body of the [try] in [_analyse]. *)
Definition resolve_and_call (self_run : M pyval) (command : pyval)
  : M pyval :=
  content <- lift (py_getitem command "content") ;;
  name <- lift (py_lower content) ;;
  f <- lift (getattr_self self_run name) ;;
  f.

(** The [try] statement of [_analyse]: any exception is printed and the
    method returns [None]. *)
Definition try_call (self_run : M pyval) (command : pyval) : M pyval :=
  try_except (res <- resolve_and_call self_run command ;; ret res)
             (fun e => print e ;;; ret PNone).

Definition _analyse (self_run : M pyval) (command : pyval) : M pyval :=
  has_action <- lift (py_in "action" command) ;;
  if negb has_action then ret PNone
  else
    a <- lift (py_getitem command "action") ;;
    is_set <- lift (py_in (APIAction.name APIAction.SET_STATE) a) ;;
    unknown <-
      (if negb is_set then
         a' <- lift (py_getitem command "action") ;;
         is_query <- lift (py_in (APIAction.name APIAction.QUERY) a') ;;
         ret (negb is_query)
       else ret false) ;;
    if (unknown : bool) then ret PNone
    else
      try_call self_run command.

(** [run]: one unit of [fuel] per turn of the loop; a [run] reached
    through [_analyse] gets what is left. *)
Fixpoint run (fuel : nat) : M pyval :=
  match fuel with
  | O => fun _ => Fuel
  | S fuel' =>
      fun d =>
        if _running d then
          (qi <- get_field _input_queue ;;
           command <- q_get qi ;;
           res <- _analyse (run fuel') command ;;
           qo <- get_field _output_queue ;;
           q_put qo res ;;;
           run fuel') d
        else Ret PNone d
  end.

(** One turn of the loop, for a worker that is running. *)
Definition iteration (fuel : nat) : M unit :=
  qi <- get_field _input_queue ;;
  command <- q_get qi ;;
  res <- _analyse (run fuel) command ;;
  qo <- get_field _output_queue ;;
  q_put qo res.

(** [LibRelay02(device, bauds)], among the queue objects [qs]. *)
Definition LibRelay02 (device : string) (bauds : Z) (qs : qref -> queue)
  : dispatcher :=
  mkDispatcher device bauds true None None None qs [].

(** The command descriptors of the docstring of [_analyse]:
    [{ "action": action, "content": content }]. *)
Definition command (action content : string) : pyval :=
  PDict [(PStr "action", PStr action); (PStr "content", PStr content)].

(** The string that [getattr] receives for a command: the lowered
    [content], when the command is a dict that has one and it is a string. *)
Definition target (command : pyval) : option string :=
  match py_getitem command "content" with
  | Ok (PStr s) => Some (lower s)
  | _ => None
  end.

(** What the two tests at the head of [_analyse] decide: [Ok true] when
    the command goes on to the [try], [Ok false] when the method returns at
    once, an exception when a test raises. *)
Definition validates (command : pyval) : result bool :=
  match py_in "action" command with
  | Err e => Err e
  | Ok false => Ok false
  | Ok true =>
      match py_getitem command "action" with
      | Err e => Err e
      | Ok a =>
          match py_in (APIAction.name APIAction.SET_STATE) a with
          | Err e => Err e
          | Ok true => Ok true
          | Ok false => py_in (APIAction.name APIAction.QUERY) a
          end
      end
  end.

(** The values that have a membership test. *)
Definition container (v : pyval) : bool :=
  match v with
  | PStr _ | PList _ | PDict _ => true
  | _ => false
  end.

(** The command does not make the worker call its own [run], and names no
    attribute of the base classes. *)
Definition plain (command : pyval) : Prop :=
  forall n, target command = Some n ->
            n <> "run" /\ (own n = None -> inherited n = None).

(** Where a call leaves the object, if it comes back at all. *)
Definition final {A} (o : outcome A) : option dispatcher :=
  match o with
  | Ret _ d | Raise _ d | Block d => Some d
  | Fuel => None
  end.

(** The worker takes the commands of [l] one after the other, each with the
    value it answers: a command is taken from the input queue, analysed,
    and its result is put before the next command is taken. *)
Inductive served : dispatcher -> list (pyval * pyval) -> dispatcher -> Prop :=
| served_nil d : served d [] d
| served_cons d c d1 r d2 d3 l d' :
    q_get (_input_queue d) d = Ret c d1 ->
    (exists fuel, _analyse (run fuel) c d1 = Ret r d2) ->
    q_put (_output_queue d2) r d2 = Ret tt d3 ->
    served d3 l d' ->
    served d ((c, r) :: l) d'.

(** The state after [get] has taken the first item of the input queue. *)
Definition taken (qi : qref) (rest : list pyval) (d : dispatcher)
  : dispatcher :=
  store qi (mkQueue rest (unfinished (queues d qi))) d.

(** The state after [put] has added [v] to the queue [qo]. *)
Definition added (qo : qref) (v : pyval) (d : dispatcher) : dispatcher :=
  store qo (Queue_put v (queues d qo)) d.

(** A query: write the byte, sleep, read [size] bytes. *)
Definition after_query (w : list byte) (size : Z) (s2 : Serial)
           (d : dispatcher) : dispatcher :=
  with_trace (trace d ++ [EvWrite w; EvSleep 100; EvRead size])
             (with_filedesc (Some s2) d).

(** A state command: write the byte, sleep. *)
Definition after_command (w : list byte) (s1 : Serial) (d : dispatcher)
  : dispatcher :=
  with_trace (trace d ++ [EvWrite w; EvSleep 100])
             (with_filedesc (Some s1) d).

(** The commands that [_analyse] turns away: a dict without the key
    ["action"], or one whose action contains neither name. *)
Definition lacks_action (command : pyval) : Prop :=
  exists kv, command = PDict kv /\ dict_get "action" kv = None.

Definition unknown_action (command : pyval) : Prop :=
  exists kv a,
    command = PDict kv /\ dict_get "action" kv = Some a /\
    py_in (APIAction.name APIAction.SET_STATE) a = Ok false /\
    py_in (APIAction.name APIAction.QUERY) a = Ok false.

(** An action that [_analyse] lets through: a string in which one of the
    two names occurs. *)
Definition accepted_action (a : string) : Prop :=
  substring (APIAction.name APIAction.SET_STATE) a = true \/
  substring (APIAction.name APIAction.QUERY) a = true.

(* ------------------------------------------------------------------ *)
(** ** Reasoning about calls *)

(** [m] comes back, by return or by exception, and [R] relates the object
    before and after. *)
Definition preserves (R : dispatcher -> dispatcher -> Prop) {A} (m : M A)
  : Prop :=
  forall d,
    match m d with
    | Ret _ d' | Raise _ d' => R d d'
    | Block _ | Fuel => False
    end.

Section Preserves.

Variable R : dispatcher -> dispatcher -> Prop.
Hypothesis R_refl : forall d, R d d.
Hypothesis R_trans : forall d1 d2 d3, R d1 d2 -> R d2 d3 -> R d1 d3.

Lemma preserves_ret {A} (a : A) : preserves R (ret a).
Proof. intros d. apply R_refl. Qed.

Lemma preserves_raise {A} (e : exn) : preserves R (@raise A e).
Proof. intros d. apply R_refl. Qed.

Lemma preserves_lift {A} (r : result A) : preserves R (lift r).
Proof. destruct r; [apply preserves_ret | apply preserves_raise]. Qed.

Lemma preserves_get_field {A} (f : dispatcher -> A) :
  preserves R (get_field f).
Proof. intros d. apply R_refl. Qed.

Lemma preserves_modify (f : dispatcher -> dispatcher) :
  (forall d, R d (f d)) -> preserves R (modify f).
Proof. intros H d. apply H. Qed.

Lemma preserves_bind {A B} (m : M A) (k : A -> M B) :
  preserves R m -> (forall a, preserves R (k a)) -> preserves R (bind m k).
Proof.
  intros Hm Hk d. unfold bind. specialize (Hm d).
  destruct (m d) as [a d1|e d1|d1|]; try assumption.
  specialize (Hk a d1).
  destruct (k a d1); try assumption; eapply R_trans; eassumption.
Qed.

Lemma preserves_bind_lift {A B} (r : result A) (k : A -> M B) :
  (forall a, r = Ok a -> preserves R (k a)) -> preserves R (bind (lift r) k).
Proof.
  intros Hk. destruct r as [a|e].
  - intros d. unfold bind, lift, ret. apply (Hk a eq_refl).
  - intros d. unfold bind, lift, raise. apply R_refl.
Qed.

Lemma preserves_try_except {A} (m : M A) (h : exn -> M A) :
  preserves R m -> (forall e, preserves R (h e)) ->
  preserves R (try_except m h).
Proof.
  intros Hm Hh d. unfold try_except. specialize (Hm d).
  destruct (m d) as [a d1|e d1|d1|]; try assumption.
  specialize (Hh e d1).
  destruct (h e d1); try assumption; eapply R_trans; eassumption.
Qed.

End Preserves.

(** *** The queue objects *)

Lemma queues_store_same r q d : queues (store r q d) r = q.
Proof. unfold store. simpl. now rewrite Nat.eqb_refl. Qed.

Lemma queues_store_other r r' q d :
  r' <> r -> queues (store r q d) r' = queues d r'.
Proof.
  intros H. unfold store. simpl.
  destruct (Nat.eqb_spec r' r); [contradiction | reflexivity].
Qed.

(** Nothing but the queue object [qi] differs between [d] and [d']. *)
Definition same_but_queue (qi : qref) (d d' : dispatcher) : Prop :=
  _device d' = _device d /\ _bauds d' = _bauds d /\
  _running d' = _running d /\ _filedesc d' = _filedesc d /\
  _input_queue d' = _input_queue d /\ _output_queue d' = _output_queue d /\
  trace d' = trace d /\
  forall r, r <> qi -> queues d' r = queues d r.

Lemma same_but_queue_refl qi d : same_but_queue qi d d.
Proof. unfold same_but_queue. repeat split; reflexivity. Qed.

Lemma same_but_queue_trans qi d1 d2 d3 :
  same_but_queue qi d1 d2 -> same_but_queue qi d2 d3 ->
  same_but_queue qi d1 d3.
Proof.
  unfold same_but_queue.
  intros (A1 & A2 & A3 & A4 & A5 & A6 & A7 & A8)
         (B1 & B2 & B3 & B4 & B5 & B6 & B7 & B8).
  repeat split; try congruence.
  intros r Hr. rewrite B8, A8 by assumption. reflexivity.
Qed.

Lemma same_but_queue_store qi q d : same_but_queue qi d (store qi q d).
Proof.
  unfold same_but_queue. repeat split.
  intros r Hr. now apply queues_store_other.
Qed.

(** [__clear_queue] on an attached queue: it empties the queue when every
    item still counts as an unfinished task, and [task_done] raises
    [ValueError] otherwise. *)
Lemma clear_loop_spec fuel : forall qi d,
  List.length (items (queues d qi)) < fuel ->
  match clear_loop fuel (Some qi) d with
  | Ret _ d' =>
      items (queues d' qi) = [] /\
      List.length (items (queues d qi)) <= unfinished (queues d qi) /\
      same_but_queue qi d d'
  | Raise e d' =>
      e = ValueError /\
      unfinished (queues d qi) < List.length (items (queues d qi)) /\
      same_but_queue qi d d'
  | Block _ | Fuel => False
  end.
Proof.
  induction fuel as [|fuel IH]; intros qi d Hlen; [lia|].
  simpl. unfold bind at 1. unfold q_empty, Queue_empty.
  destruct (items (queues d qi)) as [|v rest] eqn:Hitems.
  - unfold ret. repeat split; auto using same_but_queue_refl.
    simpl; lia.
  - unfold bind at 1. unfold try_except, bind at 1.
    unfold q_get_nowait, Queue_get_nowait. rewrite Hitems.
    unfold ret at 1.
    set (d1 := store qi {| items := rest; unfinished := unfinished (queues d qi) |} d).
    unfold bind at 1. unfold q_task_done, Queue_task_done.
    unfold d1 at 1. rewrite queues_store_same. cbn [unfinished items].
    destruct (unfinished (queues d qi)) as [|n] eqn:Hun.
    + repeat split; simpl; try lia.
      intros r Hr. destruct (Nat.eqb_spec r qi); [contradiction|reflexivity].
    + replace (items (queues d1 qi)) with rest
        by (unfold d1; now rewrite queues_store_same).
      set (d2 := store qi {| items := rest; unfinished := n |} d1).
      assert (Hq2 : queues d2 qi = {| items := rest; unfinished := n |})
        by apply queues_store_same.
      assert (Hs : same_but_queue qi d d2).
      { eapply same_but_queue_trans; apply same_but_queue_store. }
      specialize (IH qi d2). rewrite Hq2 in IH. simpl in IH, Hlen.
      specialize (IH ltac:(lia)).
      destruct (clear_loop fuel (Some qi) d2) as [[] d'|e d'|d'|];
        try contradiction.
      * destruct IH as (I1 & I2 & I3). split; [assumption|].
        split; [simpl; lia|].
        eapply same_but_queue_trans; eassumption.
      * destruct IH as (I1 & I2 & I3). split; [assumption|].
        split; [simpl; lia|].
        eapply same_but_queue_trans; eassumption.
Qed.

Lemma clear_queue_None d : __clear_queue None d = Raise AttributeError d.
Proof. reflexivity. Qed.

Lemma clear_queue_spec qi d :
  match __clear_queue (Some qi) d with
  | Ret _ d' =>
      items (queues d' qi) = [] /\
      List.length (items (queues d qi)) <= unfinished (queues d qi) /\
      same_but_queue qi d d'
  | Raise e d' =>
      e = ValueError /\
      unfinished (queues d qi) < List.length (items (queues d qi)) /\
      same_but_queue qi d d'
  | Block _ | Fuel => False
  end.
Proof. unfold __clear_queue. apply clear_loop_spec. lia. Qed.

(** [__clear_queue] always comes back: the steps it is given suffice. *)
Lemma __clear_queue_total q d :
  exists d', (exists v, __clear_queue q d = Ret v d') \/
             (exists e, __clear_queue q d = Raise e d').
Proof.
  destruct q as [qi|].
  - pose proof (clear_queue_spec qi d) as H.
    destruct (__clear_queue (Some qi) d) as [v d'|e d'|d'|];
      try contradiction; exists d'; eauto.
  - exists d. right. exists AttributeError. reflexivity.
Qed.

(** *** What a call leaves alone

    The two queue fields stay; no queue object but the input queue
    changes; and the input queue changes only in a worker that is told to
    stop. *)
Definition keeps (d d' : dispatcher) : Prop :=
  _input_queue d' = _input_queue d /\
  _output_queue d' = _output_queue d /\
  (forall r, _input_queue d <> Some r -> queues d' r = queues d r) /\
  (_running d' = true ->
   _running d = true /\ forall r, queues d' r = queues d r).

Lemma keeps_refl d : keeps d d.
Proof. unfold keeps. auto. Qed.

Lemma keeps_trans d1 d2 d3 : keeps d1 d2 -> keeps d2 d3 -> keeps d1 d3.
Proof.
  unfold keeps. intros (A1 & A2 & A3 & A4) (B1 & B2 & B3 & B4).
  repeat split; try congruence.
  - intros r Hr. rewrite B3 by congruence. now apply A3.
  - apply A4. now apply B4.
  - intros r. destruct (B4 H) as (H2 & Hq). destruct (A4 H2) as (_ & Hq').
    now rewrite Hq, Hq'.
Qed.

Lemma keeps_fields d d' :
  _input_queue d' = _input_queue d -> _output_queue d' = _output_queue d ->
  _running d' = _running d -> queues d' = queues d -> keeps d d'.
Proof.
  intros H1 H2 H3 H4. unfold keeps. rewrite H1, H2, H3, H4. auto.
Qed.

Lemma keeps_stopped qi d d' :
  _input_queue d = Some qi -> _running d' = false ->
  same_but_queue qi d d' -> keeps d d'.
Proof.
  intros Hin Hrun (_ & _ & _ & _ & S5 & S6 & _ & S8).
  unfold keeps. repeat split; try assumption; try congruence.
  intros r Hr. apply S8. congruence.
Qed.

Lemma filedesc_write_keeps data : preserves keeps (filedesc_write data).
Proof.
  intros d. unfold filedesc_write.
  destruct (_filedesc d) as [s|]; [|apply keeps_refl].
  destruct (Serial_write s data) as [[v|e] s']; now apply keeps_fields.
Qed.

Lemma filedesc_read_keeps size : preserves keeps (filedesc_read size).
Proof.
  intros d. unfold filedesc_read.
  destruct (_filedesc d) as [s|]; [|apply keeps_refl].
  destruct (Serial_read s size) as [[v|e] s']; now apply keeps_fields.
Qed.

Lemma filedesc_close_keeps : preserves keeps filedesc_close.
Proof.
  intros d. unfold filedesc_close.
  destruct (_filedesc d) as [s|]; [|apply keeps_refl].
  destruct (Serial_close s) as [[v|e] s']; now apply keeps_fields.
Qed.

Lemma keeps_ret {A} (a : A) : preserves keeps (ret a).
Proof. apply preserves_ret, keeps_refl. Qed.

Lemma keeps_raise {A} (e : exn) : preserves keeps (@raise A e).
Proof. apply preserves_raise, keeps_refl. Qed.

Lemma keeps_get_field {A} (f : dispatcher -> A) :
  preserves keeps (get_field f).
Proof. apply preserves_get_field, keeps_refl. Qed.

Lemma keeps_bind {A B} (m : M A) (k : A -> M B) :
  preserves keeps m -> (forall a, preserves keeps (k a)) ->
  preserves keeps (bind m k).
Proof. apply preserves_bind, keeps_trans. Qed.

Lemma keeps_bind_lift {A B} (r : result A) (k : A -> M B) :
  (forall a, r = Ok a -> preserves keeps (k a)) ->
  preserves keeps (bind (lift r) k).
Proof. apply preserves_bind_lift, keeps_refl. Qed.

Lemma keeps_try_except {A} (m : M A) (h : exn -> M A) :
  preserves keeps m -> (forall e, preserves keeps (h e)) ->
  preserves keeps (try_except m h).
Proof. apply preserves_try_except, keeps_trans. Qed.

Create HintDb keeps.
#[local] Hint Resolve keeps_ret keeps_raise keeps_get_field
  filedesc_write_keeps filedesc_read_keeps filedesc_close_keeps : keeps.

Ltac keeps_step :=
  first
    [ apply keeps_bind_lift; intros ? _
    | apply keeps_bind; [solve [auto with keeps] | intros ?]
    | apply preserves_modify; intros ?; now apply keeps_fields
    | solve [auto with keeps] ].

Lemma time_sleep_keeps ms : preserves keeps (time_sleep ms).
Proof. unfold time_sleep. keeps_step. Qed.

Lemma print_keeps e : preserves keeps (print e).
Proof. unfold print. keeps_step. Qed.

#[local] Hint Resolve time_sleep_keeps print_keeps : keeps.

Lemma version_keeps : preserves keeps version.
Proof. unfold version. repeat keeps_step. Qed.

Lemma status_keeps : preserves keeps status.
Proof. unfold status. repeat keeps_step. Qed.

Lemma tmp_fct_keeps value : preserves keeps (tmp_fct value).
Proof. unfold tmp_fct. repeat keeps_step. Qed.

Lemma input_queue_keeps : preserves keeps input_queue.
Proof. unfold input_queue. repeat keeps_step. Qed.

Lemma output_queue_keeps : preserves keeps output_queue.
Proof. unfold output_queue. repeat keeps_step. Qed.

Lemma setup_keeps : preserves keeps setup.
Proof.
  intros d. unfold setup.
  destruct (serial_Serial _ _ _ _ _) as [s|e]; now apply keeps_fields.
Qed.

Lemma quit_keeps : preserves keeps quit.
Proof.
  intros d. unfold quit.
  unfold bind at 1. unfold modify at 1.
  unfold bind at 1. unfold get_field at 1.
  set (d1 := with_running false d).
  assert (K1 : keeps d d1).
  { unfold keeps, d1. simpl. repeat split; auto; discriminate. }
  unfold bind at 1.
  destruct (_input_queue d1) as [qi|] eqn:Hin.
  - pose proof (clear_queue_spec qi d1) as Hc.
    destruct (__clear_queue (Some qi) d1) as [[] d2|e d2|d2|];
      try contradiction.
    + destruct Hc as (_ & _ & Hs).
      assert (K2 : keeps d1 d2).
      { eapply keeps_stopped; eauto.
        destruct Hs as (_ & _ & -> & _). reflexivity. }
      pose proof (keeps_bind filedesc_close (fun _ => ret PNone)
                    filedesc_close_keeps (fun _ => keeps_ret PNone) d2) as Hk.
      destruct (bind filedesc_close (fun _ => ret PNone) d2);
        try contradiction; eauto using keeps_trans.
    + destruct Hc as (_ & _ & Hs).
      eapply keeps_trans; [exact K1|].
      eapply keeps_stopped; eauto.
      destruct Hs as (_ & _ & -> & _). reflexivity.
  - rewrite clear_queue_None. exact K1.
Qed.

#[local] Hint Resolve version_keeps status_keeps tmp_fct_keeps
  input_queue_keeps output_queue_keeps setup_keeps quit_keeps : keeps.

(** Every attribute of the module but [run] and [__init__]. *)
Lemma call_keeps self_run a :
  a <> a_run -> a <> a_init -> preserves keeps (call self_run a).
Proof.
  intros Hrun Hinit.
  destruct a; simpl; try contradiction; auto with keeps.
Qed.

(** *** Name resolution *)

Lemma own_run n : own n = Some a_run -> n = "run".
Proof.
  unfold own. simpl.
  repeat match goal with
         | |- context [String.eqb n ?k] =>
             destruct (String.eqb_spec n k) as [->|_];
             [simpl; intros H; first [discriminate H | reflexivity]|]
         end.
  intros H; discriminate H.
Qed.

Lemma own_init n : own n = Some a_init -> n = "__init__".
Proof.
  unfold own. simpl.
  repeat match goal with
         | |- context [String.eqb n ?k] =>
             destruct (String.eqb_spec n k) as [->|_];
             [simpl; intros H; first [discriminate H | reflexivity]|]
         end.
  intros H; discriminate H.
Qed.

(** What the [try] of [_analyse] calls, for a command with target [s]. *)
Lemma resolve_and_call_preserves
      (R : dispatcher -> dispatcher -> Prop) self_run command :
  (forall d, R d d) ->
  (forall s a, target command = Some s -> own s = Some a ->
               preserves R (call self_run a)) ->
  (forall s m, target command = Some s -> own s = None ->
               inherited s = Some m -> preserves R m) ->
  preserves R (resolve_and_call self_run command).
Proof.
  intros Hrefl Hown Hinh. unfold resolve_and_call.
  apply preserves_bind_lift; [assumption|]. intros content H1.
  apply preserves_bind_lift; [assumption|]. intros name H2.
  apply preserves_bind_lift; [assumption|]. intros f H3.
  destruct content; try discriminate; simpl in H2;
    injection H2 as <-; simpl in H3; try discriminate.
  assert (Ht : target command = Some (lower s))
    by (unfold target; now rewrite H1).
  destruct (own (lower s)) as [a|] eqn:Ho.
  - injection H3 as <-. eauto.
  - destruct (inherited (lower s)) as [m|] eqn:Hi; [|discriminate].
    injection H3 as <-. eauto.
Qed.

Lemma _analyse_preserves
      (R : dispatcher -> dispatcher -> Prop) self_run command :
  (forall d, R d d) ->
  (forall d1 d2 d3, R d1 d2 -> R d2 d3 -> R d1 d3) ->
  (forall e, preserves R (print e)) ->
  (forall s a, target command = Some s -> own s = Some a ->
               preserves R (call self_run a)) ->
  (forall s m, target command = Some s -> own s = None ->
               inherited s = Some m -> preserves R m) ->
  preserves R (_analyse self_run command).
Proof.
  intros Hrefl Htrans Hprint Hown Hinh. unfold _analyse, try_call.
  apply preserves_bind_lift; [assumption|]. intros has _.
  destruct (negb has); [now apply preserves_ret|].
  apply preserves_bind_lift; [assumption|]. intros a _.
  apply preserves_bind_lift; [assumption|]. intros is_set _.
  apply preserves_bind; [assumption| |].
  - destruct (negb is_set); [|now apply preserves_ret].
    apply preserves_bind_lift; [assumption|]. intros a' _.
    apply preserves_bind_lift; [assumption|]. intros is_query _.
    now apply preserves_ret.
  - intros unknown. destruct unknown; [now apply preserves_ret|].
    apply preserves_try_except; [assumption| |].
    + apply preserves_bind; [assumption| |].
      * now apply resolve_and_call_preserves.
      * intros res. now apply preserves_ret.
    + intros e. apply preserves_bind; [assumption|apply Hprint|].
      intros _. now apply preserves_ret.
Qed.

(** A plain command that does not name [__init__] either. *)
Lemma _analyse_keeps self_run command :
  plain command -> target command <> Some "__init__" ->
  preserves keeps (_analyse self_run command).
Proof.
  intros Hplain Hinit.
  apply _analyse_preserves;
    [apply keeps_refl | apply keeps_trans | apply print_keeps | |].
  - intros s a Ht Ho. apply call_keeps.
    + intros ->. apply own_run in Ho. subst s.
      now destruct (Hplain _ Ht).
    + intros ->. apply own_init in Ho. subst s. contradiction.
  - intros s m Ht Ho Hi. destruct (Hplain _ Ht) as (_ & H).
    rewrite (H Ho) in Hi. discriminate.
Qed.

(** [__init__], called again on the live object, detaches both queues. *)
Definition detaches (d d' : dispatcher) : Prop :=
  _input_queue d' = None /\ _output_queue d' = None /\
  forall r, _input_queue d <> Some r -> queues d' r = queues d r.

Definition keeps_or_detaches (d d' : dispatcher) : Prop :=
  keeps d d' \/ detaches d d'.

Lemma keeps_or_detaches_refl d : keeps_or_detaches d d.
Proof. left. apply keeps_refl. Qed.

Lemma keeps_or_detaches_trans d1 d2 d3 :
  keeps_or_detaches d1 d2 -> keeps_or_detaches d2 d3 ->
  keeps_or_detaches d1 d3.
Proof.
  intros [K1|(A1 & A2 & A3)] [K2|(B1 & B2 & B3)].
  - left. eapply keeps_trans; eassumption.
  - right. destruct K1 as (K1 & _ & K3 & _). repeat split; auto.
    intros r Hr. rewrite B3 by congruence. now apply K3.
  - right. destruct K2 as (K1 & K2 & K3 & _). repeat split; try congruence.
    intros r Hr. rewrite K3 by congruence. now apply A3.
  - right. repeat split; auto.
    intros r Hr. rewrite B3 by congruence. now apply A3.
Qed.

Lemma preserves_weaken (R R' : dispatcher -> dispatcher -> Prop) {A}
      (m : M A) :
  (forall d d', R d d' -> R' d d') -> preserves R m -> preserves R' m.
Proof.
  intros H Hm d. specialize (Hm d). destruct (m d); auto.
Qed.

Lemma init_detaches device bauds : preserves detaches (__init__ device bauds).
Proof. intros d. unfold detaches. simpl. auto. Qed.

Lemma call_keeps_or_detaches self_run a :
  a <> a_run -> preserves keeps_or_detaches (call self_run a).
Proof.
  intros Hrun. destruct a;
    try (apply preserves_weaken with (R := keeps);
         [now left | apply call_keeps; congruence]).
  simpl. apply preserves_weaken with (R := detaches);
    [now right | apply init_detaches].
Qed.

Lemma _analyse_plain self_run command :
  plain command ->
  preserves keeps_or_detaches (_analyse self_run command).
Proof.
  intros Hplain.
  apply _analyse_preserves;
    [apply keeps_or_detaches_refl | apply keeps_or_detaches_trans | | |].
  - intros e. apply preserves_weaken with (R := keeps);
      [now left | apply print_keeps].
  - intros s a Ht Ho. apply call_keeps_or_detaches.
    intros ->. apply own_run in Ho. subst s. now destruct (Hplain _ Ht).
  - intros s m Ht Ho Hi. destruct (Hplain _ Ht) as (_ & H).
    rewrite (H Ho) in Hi. discriminate.
Qed.

(** On a plain command the callback for [run] is never used. *)
Lemma _analyse_plain_callback k1 k2 command d :
  plain command -> _analyse k1 command d = _analyse k2 command d.
Proof.
  intros Hplain.
  assert (E : forall d4,
             resolve_and_call k1 command d4 = resolve_and_call k2 command d4).
  { intros d4. unfold resolve_and_call, bind.
    destruct (py_getitem command "content") as [content|] eqn:H1; trivial.
    simpl. destruct (py_lower content) as [name|] eqn:H2; trivial.
    simpl. destruct content; try discriminate; simpl in H2;
      injection H2 as <-; simpl; trivial.
    destruct (own (lower s)) as [a'|] eqn:Ho; trivial.
    simpl. destruct a'; trivial.
    apply own_run in Ho.
    destruct (Hplain (lower s)) as (Hn & _);
      [unfold target; now rewrite H1 | contradiction]. }
  unfold _analyse, try_call, bind, try_except.
  repeat match goal with
         | |- match ?x with _ => _ end = match ?x with _ => _ end =>
             destruct x; trivial
         | |- (if ?b then _ else _) ?d = (if ?b then _ else _) ?d =>
             destruct b; trivial
         end.
  now rewrite E.
Qed.

(** *** The shape of [_analyse] and of the loop *)

Lemma _analyse_validates self_run command d :
  _analyse self_run command d =
  match validates command with
  | Err e => Raise e d
  | Ok false => Ret PNone d
  | Ok true => try_call self_run command d
  end.
Proof.
  unfold _analyse, validates, bind.
  destruct (py_in "action" command) as [[|]|e]; simpl; trivial.
  destruct (py_getitem command "action") as [a|e]; simpl; trivial.
  destruct (py_in _ a) as [[|]|e]; simpl; trivial.
  destruct (py_in "QUERY" a) as [[|]|e]; simpl; trivial.
Qed.

Lemma run_stopped fuel d : _running d = false -> run (S fuel) d = Ret PNone d.
Proof. intros H. simpl. now rewrite H. Qed.

Lemma run_S fuel d :
  _running d = true ->
  run (S fuel) d =
  match iteration fuel d with
  | Ret _ d' => run fuel d'
  | Raise e d' => Raise e d'
  | Block d' => Block d'
  | Fuel => Fuel
  end.
Proof.
  intros H. simpl. rewrite H. unfold iteration, bind.
  repeat match goal with
         | |- match ?x with _ => _ end = _ => destruct x; trivial
         end.
Qed.

Lemma q_get_taken d qi c rest :
  items (queues d qi) = c :: rest ->
  q_get (Some qi) d = Ret c (taken qi rest d).
Proof. intros H. unfold q_get, Queue_get_nowait. now rewrite H. Qed.

Lemma q_get_empty d qi :
  items (queues d qi) = [] -> q_get (Some qi) d = Block d.
Proof. intros H. unfold q_get, Queue_get_nowait. now rewrite H. Qed.

Lemma iteration_taken fuel d qi c rest :
  _input_queue d = Some qi ->
  items (queues d qi) = c :: rest ->
  iteration fuel d =
  match _analyse (run fuel) c (taken qi rest d) with
  | Ret res d2 => q_put (_output_queue d2) res d2
  | Raise e d2 => Raise e d2
  | Block d2 => Block d2
  | Fuel => Fuel
  end.
Proof.
  intros Hin Hitems. unfold iteration. unfold bind at 1. unfold get_field at 1.
  unfold bind at 1. rewrite Hin, (q_get_taken _ _ _ _ Hitems).
  unfold bind at 1.
  destruct (_analyse (run fuel) c (taken qi rest d)); trivial.
Qed.

Lemma py_in_dict s kv :
  py_in s (PDict kv) =
  Ok (match dict_get s kv with Some _ => true | None => false end).
Proof.
  simpl. f_equal. induction kv as [|[k v] kv IH]; simpl; trivial.
  destruct (is_str s k); simpl; trivial.
Qed.

Lemma validates_rejected command :
  lacks_action command \/ unknown_action command ->
  validates command = Ok false.
Proof.
  intros [(kv & -> & H)|(kv & a & -> & H & H1 & H2)];
    unfold validates; rewrite py_in_dict, H; trivial.
  simpl py_getitem. rewrite H, H1. exact H2.
Qed.

(** *** The exchanges with the device *)

Lemma filedesc_write_ok d s data v s' :
  _filedesc d = Some s -> Serial_write s data = (Ok v, s') ->
  filedesc_write data d =
  Ret v (log (EvWrite data) (with_filedesc (Some s') d)).
Proof. intros H1 H2. unfold filedesc_write. now rewrite H1, H2. Qed.

Lemma filedesc_read_ok d s size v s' :
  _filedesc d = Some s -> Serial_read s size = (Ok v, s') ->
  filedesc_read size d =
  Ret v (log (EvRead size) (with_filedesc (Some s') d)).
Proof. intros H1 H2. unfold filedesc_read. now rewrite H1, H2. Qed.

Lemma version_ok d s v s1 r s2 :
  _filedesc d = Some s ->
  Serial_write s ["Z"%byte] = (Ok v, s1) ->
  Serial_read s1 2 = (Ok r, s2) ->
  version d = Ret r (after_query ["Z"%byte] 2 s2 d).
Proof.
  intros H1 H2 H3. unfold version, bind. simpl lift. unfold ret at 1.
  rewrite (filedesc_write_ok _ _ _ _ _ H1 H2). unfold time_sleep, modify.
  erewrite filedesc_read_ok; [|reflexivity|exact H3].
  unfold ret, after_query, log, with_trace, with_filedesc. simpl.
  now rewrite <- !app_assoc.
Qed.


Lemma tmp_fct_ok d s value w v s1 :
  struct_pack_B value = Ok w ->
  _filedesc d = Some s ->
  Serial_write s w = (Ok v, s1) ->
  tmp_fct value d = Ret v (after_command w s1 d).
Proof.
  intros H0 H1 H2. unfold tmp_fct, bind. rewrite H0. simpl lift.
  unfold ret at 1.
  rewrite (filedesc_write_ok _ _ _ _ _ H1 H2). unfold time_sleep, modify.
  unfold ret, after_command, log, with_trace, with_filedesc. simpl.
  now rewrite <- !app_assoc.
Qed.

(** *** The [try] of [_analyse], once the name is resolved *)

Lemma try_call_ret self_run c content name f d r d' :
  py_getitem c "content" = Ok content ->
  py_lower content = Ok name ->
  getattr_self self_run name = Ok f ->
  f d = Ret r d' ->
  try_call self_run c d = Ret r d'.
Proof.
  intros H1 H2 H3 H4.
  unfold try_call, try_except, resolve_and_call, bind.
  rewrite H1. simpl. rewrite H2. simpl. rewrite H3. simpl. now rewrite H4.
Qed.

Lemma try_call_raise self_run c content name f d e d' :
  py_getitem c "content" = Ok content ->
  py_lower content = Ok name ->
  getattr_self self_run name = Ok f ->
  f d = Raise e d' ->
  try_call self_run c d = Ret PNone (log (EvPrint e) d').
Proof.
  intros H1 H2 H3 H4.
  unfold try_call, try_except, resolve_and_call, bind.
  rewrite H1. simpl. rewrite H2. simpl. rewrite H3. simpl. now rewrite H4.
Qed.

(* ------------------------------------------------------------------ *)
(** ** The claims *)

Lemma items_added_other qi qo v rest d :
  qi <> qo ->
  items (queues (added qo v (taken qi rest d)) qo) = items (queues d qo) ++ [v].
Proof.
  intros H. unfold added. rewrite queues_store_same.
  unfold taken. rewrite queues_store_other by congruence. reflexivity.
Qed.

(** C1 (amended): for every command that is a dict without the key
    "action", or a dict whose action is a string, list or dict containing
    neither "SET_STATE" nor "QUERY", one turn of the worker loop takes the
    command, makes no call to the device and prints nothing, and puts
    exactly one value, [None], on the output queue; the loop then goes on
    with the commands that follow. *)
Theorem C1_rejected_command_puts_None fuel d qi qo c rest :
  _running d = true ->
  _input_queue d = Some qi ->
  _output_queue d = Some qo ->
  items (queues d qi) = c :: rest ->
  lacks_action c \/ unknown_action c ->
  iteration fuel d = Ret tt (added qo PNone (taken qi rest d)) /\
  trace (added qo PNone (taken qi rest d)) = trace d /\
  _filedesc (added qo PNone (taken qi rest d)) = _filedesc d /\
  (qi <> qo ->
   items (queues (added qo PNone (taken qi rest d)) qo)
   = items (queues d qo) ++ [PNone] /\
   items (queues (added qo PNone (taken qi rest d)) qi) = rest) /\
  run (S fuel) d = run fuel (added qo PNone (taken qi rest d)).
Proof.
  intros Hrun Hin Hout Hitems Hrej.
  assert (Hit : iteration fuel d = Ret tt (added qo PNone (taken qi rest d))).
  { rewrite (iteration_taken _ _ _ _ _ Hin Hitems).
    rewrite _analyse_validates, (validates_rejected _ Hrej).
    unfold q_put. replace (_output_queue (taken qi rest d)) with (Some qo)
      by (symmetry; exact Hout).
    reflexivity. }
  split; [exact Hit|]. split; [reflexivity|]. split; [reflexivity|].
  split.
  - intros Hne. split; [now apply items_added_other|].
    unfold added. rewrite queues_store_other by assumption.
    unfold taken. now rewrite queues_store_same.
  - now rewrite (run_S _ _ Hrun), Hit.
Qed.



(** C7: [setup] returns [True] exactly when the constructor of the serial
    port, called with the device, the baud rate, no parity, 8 data bits and
    1 stop bit, succeeds; when it raises, [setup] prints the exception,
    returns [False] and leaves the handle field as it was, which is [None]
    on a new object.  [setup] itself never raises. *)
Theorem C7_setup_reports_open d :
  (forall s,
      serial_Serial (_device d) (_bauds d) PARITY_NONE 8 1 = Ok s ->
      exists d',
        setup d = Ret (PBool true) d' /\ _filedesc d' = Some s /\
        trace d' = trace d
                   ++ [EvOpen (_device d) (_bauds d) PARITY_NONE 8 1]) /\
  (forall e,
      serial_Serial (_device d) (_bauds d) PARITY_NONE 8 1 = Err e ->
      exists d',
        setup d = Ret (PBool false) d' /\ _filedesc d' = _filedesc d /\
        trace d' = trace d
                   ++ [EvOpen (_device d) (_bauds d) PARITY_NONE 8 1;
                       EvPrint e]) /\
  ((exists d', setup d = Ret (PBool true) d') <->
   (exists s, serial_Serial (_device d) (_bauds d) PARITY_NONE 8 1 = Ok s)) /\
  (exists b d', setup d = Ret (PBool b) d') /\
  (forall device bauds qs, _filedesc (LibRelay02 device bauds qs) = None).
Proof.
  unfold setup. repeat split.
  - intros s H. rewrite H. eexists. repeat split.
  - intros e H. rewrite H. eexists. repeat split.
    simpl. now rewrite <- app_assoc.
  - intros (d' & H).
    destruct (serial_Serial _ _ _ _ _) as [s|e]; [now exists s|].
    discriminate H.
  - intros (s & H). rewrite H. eexists. reflexivity.
  - destruct (serial_Serial _ _ _ _ _) as [s|e]; do 2 eexists; reflexivity.
Qed.

(** The course of [quit]. *)
Lemma quit_cases d :
  quit d =
  match _input_queue d with
  | None => Raise AttributeError (with_running false d)
  | Some qi =>
      match __clear_queue (Some qi) (with_running false d) with
      | Ret _ d2 =>
          match filedesc_close d2 with
          | Ret _ d3 => Ret PNone d3
          | Raise e d3 => Raise e d3
          | Block d3 => Block d3
          | Fuel => Fuel
          end
      | Raise e d2 => Raise e d2
      | Block d2 => Block d2
      | Fuel => Fuel
      end
  end.
Proof.
  unfold quit. unfold bind at 1. unfold modify at 1.
  unfold bind at 1. unfold get_field at 1.
  change (_input_queue (with_running false d)) with (_input_queue d).
  destruct (_input_queue d) as [qi|]; [|reflexivity].
  unfold bind at 1.
  destruct (__clear_queue (Some qi) (with_running false d)); trivial.
Qed.

(** C8 (amended): for a [quit] that no turn of the worker overlaps (the
    worker not started, stopped, or waiting on the empty queue).  When
    [quit] returns, the input queue is empty and [close] has been
    called on the handle, as the only call made to the outside: no command
    that was waiting has been written to the device, and no queue object
    other than the input queue has changed, so nothing was put on the
    output queue.  [quit] does return on an object with its input queue
    attached and its port open, when [close] succeeds and every waiting
    item still counts as an unfinished task of the queue. *)
Theorem C8_quit_discards_pending d :
  (forall qi s s',
      _input_queue d = Some qi ->
      _filedesc d = Some s ->
      Serial_close s = (Ok tt, s') ->
      List.length (items (queues d qi)) <= unfinished (queues d qi) ->
      exists d', quit d = Ret PNone d') /\
  (forall v d',
      quit d = Ret v d' ->
      exists qi s s',
        _input_queue d = Some qi /\
        items (queues d' qi) = [] /\
        _running d' = false /\
        _filedesc d = Some s /\ Serial_close s = (Ok tt, s') /\
        _filedesc d' = Some s' /\
        trace d' = trace d ++ [EvClose] /\
        _output_queue d' = _output_queue d /\
        forall r, r <> qi -> queues d' r = queues d r).
Proof.
  split.
  - intros qi s s' Hin Hfd Hclose Hlen. rewrite quit_cases, Hin.
    pose proof (clear_queue_spec qi (with_running false d)) as Hc.
    destruct (__clear_queue (Some qi) (with_running false d))
      as [[] d2|e d2|d2|]; try contradiction.
    + destruct Hc as (_ & _ & (_ & _ & _ & S4 & _)).
      unfold filedesc_close. rewrite S4. simpl. rewrite Hfd, Hclose.
      eexists. reflexivity.
    + destruct Hc as (_ & Hc & _). simpl in Hc. lia.
  - intros v d' H. rewrite quit_cases in H.
    destruct (_input_queue d) as [qi|] eqn:Hin; [|discriminate].
    pose proof (clear_queue_spec qi (with_running false d)) as Hc.
    destruct (__clear_queue (Some qi) (with_running false d))
      as [[] d2|e d2|d2|]; try discriminate.
    destruct Hc as (Hempty & _ & (_ & _ & S3 & S4 & S5 & S6 & S7 & S8)).
    unfold filedesc_close in H. rewrite S4 in H. simpl in H, S3, S6, S7, S8.
    destruct (_filedesc d) as [s|] eqn:Hfd; [|discriminate].
    destruct (Serial_close s) as [[[]|e] s'] eqn:Hclose; [|discriminate].
    injection H as <- <-. exists qi, s, s'. simpl.
    repeat split; auto. now rewrite S7.
Qed.

(** C10: [quit] on an object whose handle or whose input queue is still
    [None] (as [__init__] leaves them) raises an exception instead of
    returning; on a new object the exception is [AttributeError]. *)
Theorem C10_quit_needs_setup_and_queue d :
  _filedesc d = None \/ _input_queue d = None ->
  (exists e d', quit d = Raise e d') /\
  (forall device bauds qs,
      exists d', quit (LibRelay02 device bauds qs) = Raise AttributeError d').
Proof.
  intros H. split.
  - rewrite quit_cases.
    destruct (_input_queue d) as [qi|] eqn:Hin; [|eauto].
    destruct H as [Hfd|H]; [|discriminate].
    pose proof (clear_queue_spec qi (with_running false d)) as Hc.
    destruct (__clear_queue (Some qi) (with_running false d))
      as [[] d2|e d2|d2|]; try contradiction; eauto.
    destruct Hc as (_ & _ & (_ & _ & _ & S4 & _)).
    unfold filedesc_close. rewrite S4. simpl. rewrite Hfd. eauto.
  - intros device bauds qs. eexists. reflexivity.
Qed.

Lemma validates_accepted kv a :
  dict_get "action" kv = Some (PStr a) -> accepted_action a ->
  validates (PDict kv) = Ok true.
Proof.
  intros H Ha. unfold validates. rewrite py_in_dict, H.
  simpl py_getitem. rewrite H. simpl py_in.
  destruct Ha as [Ha|Ha].
  - unfold APIAction.name in Ha. now rewrite Ha.
  - unfold APIAction.name in Ha. rewrite Ha.
    now destruct (substring "SET_STATE" a).
Qed.

Lemma try_call_content self_run kv kv' d :
  dict_get "content" kv = dict_get "content" kv' ->
  try_call self_run (PDict kv) d = try_call self_run (PDict kv') d.
Proof.
  intros H. unfold try_call, try_except, resolve_and_call, bind.
  simpl py_getitem. now rewrite H.
Qed.

(** C9: validation does not tie the action to the content.  A descriptor
    is accepted as soon as its action is a string in which "SET_STATE" or
    "QUERY" occurs ("MY_QUERY_X" will do); two accepted descriptors with
    the same content do the same, whatever their actions; the content is
    lowered before it is looked up, so its case does not matter; and
    [{action: SET_STATE, content: VERSION}] runs the version query. *)
Theorem C9_action_not_tied_to_content self_run d :
  accepted_action "MY_QUERY_X" /\
  (forall kv kv' a a',
      dict_get "action" kv = Some (PStr a) -> accepted_action a ->
      dict_get "action" kv' = Some (PStr a') -> accepted_action a' ->
      dict_get "content" kv = dict_get "content" kv' ->
      _analyse self_run (PDict kv) d = _analyse self_run (PDict kv') d) /\
  (forall a c c',
      accepted_action a -> lower c = lower c' ->
      _analyse self_run (command a c) d = _analyse self_run (command a c') d) /\
  _analyse self_run
           (command (APIAction.name APIAction.SET_STATE)
                    (RelayQueries.name RelayQueries.VERSION)) d
  = try_except (res <- version ;; ret res) (fun e => print e ;;; ret PNone) d /\
  _analyse self_run (command "MY_QUERY_X" "Status") d
  = try_except (res <- status ;; ret res) (fun e => print e ;;; ret PNone) d /\
  (forall s v s1 r s2,
      _filedesc d = Some s ->
      Serial_write s [x5a] = (Ok v, s1) ->
      Serial_read s1 2 = (Ok r, s2) ->
      _analyse self_run
               (command (APIAction.name APIAction.SET_STATE)
                        (RelayQueries.name RelayQueries.VERSION)) d
      = Ret r (after_query [x5a] 2 s2 d)).
Proof.
  split; [right; reflexivity|].
  split; [|split; [|split; [|split]]].
  - intros kv kv' a a' H1 H2 H3 H4 Hc.
    rewrite !_analyse_validates.
    rewrite (validates_accepted _ _ H1 H2), (validates_accepted _ _ H3 H4).
    now apply try_call_content.
  - intros a c c' Ha Hl.
    rewrite !_analyse_validates. unfold command.
    rewrite !(validates_accepted _ a) by (trivial || reflexivity).
    unfold try_call, try_except, resolve_and_call, bind. simpl.
    now rewrite Hl.
  - reflexivity.
  - reflexivity.
  - intros s v s1 r s2 H1 H2 H3.
    rewrite _analyse_validates.
    change (validates (command _ _)) with (@Ok bool true). cbv iota.
    eapply try_call_ret; [reflexivity | reflexivity | reflexivity |].
    eapply version_ok; eassumption.
Qed.

Lemma validates_dict kv :
  (forall a, dict_get "action" kv = Some a -> container a = true) ->
  exists b, validates (PDict kv) = Ok b.
Proof.
  intros H. unfold validates. rewrite py_in_dict.
  destruct (dict_get "action" kv) as [a|] eqn:Ha; [|eauto].
  simpl py_getitem. rewrite Ha. specialize (H a eq_refl).
  destruct a; try discriminate; simpl;
    match goal with
    | |- context [if ?b then _ else _] => destruct b; eauto
    end.
Qed.

Lemma try_call_returns self_run c d :
  match try_call self_run c d with
  | Ret _ _ | Block _ | Fuel => True
  | Raise _ _ => False
  end.
Proof.
  unfold try_call, try_except, bind.
  destruct (resolve_and_call self_run c d); simpl; trivial.
Qed.

(** C6 (amended): when no command waiting in the input queue makes the
    worker call its own [run] (nor an attribute of the base classes), the
    loop, given enough steps for them, comes to an end (stopped, blocked
    on the empty queue, or by an exception) having taken the commands of
    a list [l] from the front of the input queue, one at a time and in
    order, each analysed and answered before the next is taken; what it
    has added to the output queue is exactly their results, in that
    order: the Nth value put is the result of the Nth command taken. *)
Theorem C6_outputs_follow_consumption fuel : forall d qi qo,
  _input_queue d = Some qi ->
  _output_queue d = Some qo ->
  qi <> qo ->
  Forall plain (items (queues d qi)) ->
  List.length (items (queues d qi)) < fuel ->
  exists l dl df,
    served d l dl /\
    (exists rest, items (queues d qi) = map fst l ++ rest) /\
    final (run fuel d) = Some df /\
    items (queues df qo) = items (queues d qo) ++ map snd l.
Proof.
  induction fuel as [|fuel IH]; intros d qi qo Hin Hout Hne Hplain Hlen;
    [lia|].
  destruct (_running d) eqn:Hrun.
  2:{ rewrite (run_stopped _ _ Hrun). exists [], d, d.
      repeat split; [constructor | now exists (items (queues d qi))
                    | simpl; now rewrite app_nil_r]. }
  rewrite (run_S _ _ Hrun).
  destruct (items (queues d qi)) as [|c rest] eqn:Hitems.
  { unfold iteration, bind, get_field. rewrite Hin, (q_get_empty _ _ Hitems).
    exists [], d, d.
    repeat split; [constructor | now exists [] | simpl; now rewrite app_nil_r]. }
  rewrite (iteration_taken _ _ _ _ _ Hin Hitems).
  inversion Hplain as [|? ? Hc Hrest]; subst.
  pose proof (_analyse_plain (run fuel) c Hc (taken qi rest d)) as K.
  assert (Hq1 : queues (taken qi rest d) qo = queues d qo).
  { unfold taken. apply queues_store_other. congruence. }
  assert (Hframe : forall d2,
             keeps_or_detaches (taken qi rest d) d2 ->
             queues d2 qo = queues d qo).
  { intros d2 [(_ & _ & K3 & _)|(_ & _ & K3)]; rewrite <- Hq1; apply K3;
      simpl; rewrite Hin; congruence. }
  destruct (_analyse (run fuel) c (taken qi rest d)) as [r d2|e d2|d2|] eqn:Ha;
    try contradiction.
  2:{ exists [], d, d2.
      repeat split; [constructor | now exists (c :: rest) |].
      simpl. now rewrite app_nil_r, (Hframe _ K). }
  destruct K as [K|K].
  - (* the command leaves the queues attached *)
    pose proof K as (K1 & K2 & K3 & K4).
    assert (Ho2 : _output_queue d2 = Some qo) by (rewrite K2; exact Hout).
    assert (Hi2 : _input_queue d2 = Some qi) by (rewrite K1; exact Hin).
    unfold q_put at 1. rewrite Ho2.
    fold (added qo r d2).
    assert (Hserved1 : q_put (_output_queue d2) r d2 = Ret tt (added qo r d2)).
    { unfold q_put. now rewrite Ho2. }
    assert (Hout3 : items (queues (added qo r d2) qo)
                    = items (queues d qo) ++ [r]).
    { unfold added. rewrite queues_store_same. simpl.
      now rewrite (Hframe d2 (or_introl K)). }
    destruct (_running d2) eqn:Hrun2.
    + destruct (K4 eq_refl) as (_ & Hq).
      assert (Hitems3 : items (queues (added qo r d2) qi) = rest).
      { unfold added. rewrite queues_store_other by assumption.
        rewrite Hq. unfold taken. now rewrite queues_store_same. }
      destruct (IH (added qo r d2) qi qo) as (l & dl & df & S1 & S2 & S3 & S4);
        try assumption.
      * now rewrite Hitems3.
      * rewrite Hitems3. simpl in Hlen. lia.
      * exists ((c, r) :: l), dl, df.
        split; [|split; [|split]].
        -- eapply served_cons; eauto.
           rewrite Hin. now apply q_get_taken.
        -- destruct S2 as (rest' & S2). exists rest'. simpl.
           now rewrite <- S2, Hitems3.
        -- exact S3.
        -- rewrite S4, Hout3, <- app_assoc. reflexivity.
    + destruct fuel as [|fuel]; [simpl in Hlen; lia|].
      rewrite run_stopped by exact Hrun2.
      exists [(c, r)], (added qo r d2), (added qo r d2).
      split; [|split; [|split]].
      * eapply served_cons; eauto; [|constructor].
        rewrite Hin. now apply q_get_taken.
      * now exists rest.
      * reflexivity.
      * exact Hout3.
  - (* the command has detached the queues: [put] has nothing to call *)
    pose proof K as (K1 & K2 & K3).
    unfold q_put. rewrite K2. exists [], d, d2.
    repeat split; [constructor | now exists (c :: rest) |].
    simpl. now rewrite app_nil_r, (Hframe d2 (or_intror K)).
Qed.

(* ------------------------------------------------------------------ *)
(** ** More of the module *)

(** The name of a protocol symbol, as a command gives it. *)
Definition Symbol_name (x : Symbol) : string :=
  match x with
  | State s => RelayStates.name s
  | Query q => RelayQueries.name q
  end.

(** The call a protocol symbol stands for. *)
Definition Symbol_call (x : Symbol) : M pyval :=
  match x with
  | State s => tmp_fct (RelayStates.value s)
  | Query RelayQueries.VERSION => version
  | Query RelayQueries.STATUS => status
  end.

(** The attributes that cannot be called without an argument: the fields,
    and the methods that take a parameter. *)
Definition not_callable_bare (a : attribute) : bool :=
  match a with
  | a_device | a_bauds | a_running | a_filedesc
  | a_input_queue_field | a_output_queue_field
  | a_set_input_queue | a_set_output_queue
  | a_clear_queue | a_analyse => true
  | _ => false
  end.

(** A command that the loop can answer and go on: a dict whose action, if
    any, has a membership test, and whose content names neither [run],
    [quit], [__init__] nor an attribute of the base classes. *)
Definition ordinary (c : pyval) : Prop :=
  (exists kv, c = PDict kv /\
              forall a, dict_get "action" kv = Some a -> container a = true) /\
  forall n, target c = Some n ->
            n <> "run" /\ n <> "quit" /\ n <> "__init__" /\
            (own n = None -> inherited n = None).

(** Every queue counts at least its waiting items as unfinished. *)
Definition counted (d : dispatcher) : Prop :=
  forall r, List.length (items (queues d r)) <= unfinished (queues d r).

(** Nothing of the loop's own state moves: the two queue fields, the
    running flag and the queue objects; a port that is open stays set. *)
Definition steady (d d' : dispatcher) : Prop :=
  _input_queue d' = _input_queue d /\
  _output_queue d' = _output_queue d /\
  _running d' = _running d /\
  queues d' = queues d /\
  (_filedesc d <> None -> _filedesc d' <> None).

Lemma steady_refl d : steady d d.
Proof. unfold steady. auto. Qed.

Lemma steady_trans d1 d2 d3 : steady d1 d2 -> steady d2 d3 -> steady d1 d3.
Proof.
  unfold steady. intros (A1 & A2 & A3 & A4 & A5) (B1 & B2 & B3 & B4 & B5).
  repeat split; try congruence. auto.
Qed.

Lemma steady_ret {A} (a : A) : preserves steady (ret a).
Proof. apply preserves_ret, steady_refl. Qed.

Lemma steady_raise {A} (e : exn) : preserves steady (@raise A e).
Proof. apply preserves_raise, steady_refl. Qed.

Lemma steady_bind {A B} (m : M A) (k : A -> M B) :
  preserves steady m -> (forall a, preserves steady (k a)) ->
  preserves steady (bind m k).
Proof. apply preserves_bind, steady_trans. Qed.

Lemma steady_bind_lift {A B} (r : result A) (k : A -> M B) :
  (forall a, r = Ok a -> preserves steady (k a)) ->
  preserves steady (bind (lift r) k).
Proof. apply preserves_bind_lift, steady_refl. Qed.

Lemma filedesc_write_steady data : preserves steady (filedesc_write data).
Proof.
  intros d. unfold filedesc_write.
  destruct (_filedesc d) as [s|]; [|apply steady_refl].
  destruct (Serial_write s data) as [[v|e] s'];
    unfold steady; simpl; repeat split; discriminate.
Qed.

Lemma filedesc_read_steady size : preserves steady (filedesc_read size).
Proof.
  intros d. unfold filedesc_read.
  destruct (_filedesc d) as [s|]; [|apply steady_refl].
  destruct (Serial_read s size) as [[v|e] s'];
    unfold steady; simpl; repeat split; discriminate.
Qed.

Lemma log_steady e d : steady d (log e d).
Proof. unfold steady. simpl. auto. Qed.

Lemma time_sleep_steady ms : preserves steady (time_sleep ms).
Proof. intros d. apply log_steady. Qed.

Lemma print_steady e : preserves steady (print e).
Proof. intros d. apply log_steady. Qed.

Lemma version_steady : preserves steady version.
Proof.
  unfold version.
  apply steady_bind_lift; intros w _.
  apply steady_bind; [apply filedesc_write_steady|intros _].
  apply steady_bind; [apply time_sleep_steady|intros _].
  apply steady_bind; [apply filedesc_read_steady|intros r].
  apply steady_ret.
Qed.

Lemma status_steady : preserves steady status.
Proof.
  unfold status.
  apply steady_bind_lift; intros w _.
  apply steady_bind; [apply filedesc_write_steady|intros _].
  apply steady_bind; [apply time_sleep_steady|intros _].
  apply steady_bind; [apply filedesc_read_steady|intros r].
  apply steady_ret.
Qed.

Lemma tmp_fct_steady value : preserves steady (tmp_fct value).
Proof.
  unfold tmp_fct.
  apply steady_bind_lift; intros w _.
  apply steady_bind; [apply filedesc_write_steady|intros r].
  apply steady_bind; [apply time_sleep_steady|intros _].
  apply steady_ret.
Qed.

Lemma setup_steady : preserves steady setup.
Proof.
  intros d. unfold setup.
  destruct (serial_Serial _ _ _ _ _) as [s|e];
    unfold steady; simpl; repeat split; auto; discriminate.
Qed.

Lemma own_quit n : own n = Some a_quit -> n = "quit".
Proof.
  unfold own. simpl.
  repeat match goal with
         | |- context [String.eqb n ?k] =>
             destruct (String.eqb_spec n k) as [->|_];
             [simpl; intros H; first [discriminate H | reflexivity]|]
         end.
  intros H; discriminate H.
Qed.

Lemma call_steady self_run a :
  a <> a_run -> a <> a_init -> a <> a_quit ->
  preserves steady (call self_run a).
Proof.
  intros H1 H2 H3.
  destruct a; simpl; try contradiction;
    auto using steady_raise, tmp_fct_steady, setup_steady, version_steady,
               status_steady.
  - unfold input_queue. intros d. apply steady_refl.
  - unfold output_queue. intros d. apply steady_refl.
  - unfold _populate_relay_states_apis. apply steady_ret.
Qed.

Lemma ordinary_plain c : ordinary c -> plain c.
Proof.
  intros (_ & H) n Hn. destruct (H n Hn) as (? & _ & _ & ?). auto.
Qed.

Lemma _analyse_steady self_run c :
  ordinary c -> preserves steady (_analyse self_run c).
Proof.
  intros (_ & H).
  apply _analyse_preserves;
    [apply steady_refl | apply steady_trans | apply print_steady | |].
  - intros s a Ht Ho. destruct (H s Ht) as (N1 & N2 & N3 & _).
    apply call_steady; intros ->.
    + apply own_run in Ho. contradiction.
    + apply own_init in Ho. contradiction.
    + apply own_quit in Ho. contradiction.
  - intros s m Ht Ho Hi. destruct (H s Ht) as (_ & _ & _ & N).
    rewrite (N Ho) in Hi. discriminate.
Qed.

(** An ordinary command is answered: [_analyse] returns. *)
Lemma _analyse_ordinary self_run c d :
  ordinary c ->
  exists r d', _analyse self_run c d = Ret r d' /\ steady d d'.
Proof.
  intros Ho. pose proof (_analyse_steady self_run c Ho d) as Hs.
  destruct Ho as ((kv & -> & Hact) & _).
  rewrite _analyse_validates in Hs |- *.
  destruct (validates_dict kv Hact) as (b & Hb). rewrite Hb in Hs |- *.
  destruct b; [|eauto].
  pose proof (try_call_returns self_run (PDict kv) d).
  destruct (try_call self_run (PDict kv) d); try contradiction; eauto.
Qed.

Lemma iteration_ordinary_step fuel d qi qo c rest :
  _input_queue d = Some qi ->
  _output_queue d = Some qo ->
  items (queues d qi) = c :: rest ->
  ordinary c ->
  exists r d2,
    _analyse (run fuel) c (taken qi rest d) = Ret r d2 /\
    steady (taken qi rest d) d2 /\
    iteration fuel d = Ret tt (added qo r d2).
Proof.
  intros Hin Hout Hitems Ho.
  destruct (_analyse_ordinary (run fuel) c (taken qi rest d) Ho)
    as (r & d2 & Ha & Hs).
  exists r, d2. split; [exact Ha|]. split; [exact Hs|].
  rewrite (iteration_taken _ _ _ _ _ Hin Hitems), Ha.
  destruct Hs as (_ & S2 & _). unfold q_put. rewrite S2. simpl.
  now rewrite Hout.
Qed.

(** C2 (amended): for every command that is a dict whose action, when it
    has one, is a string, a list or a dict, and whose content names
    neither [run], nor [__init__], nor an attribute of the base classes,
    the turn that [run] makes on it (worker running, both queues attached)
    raises nothing: [_analyse] returns, one value is put on the output
    queue, and [run] goes on from there.  When the call that the content
    resolves to raises, the exception is printed and the value is [None].
    Unless the content names [quit], the worker is still running after the
    turn, with the commands that follow still waiting. *)
Theorem C2_well_formed_command_never_raises fuel d qi qo kv rest :
  _running d = true ->
  _input_queue d = Some qi ->
  _output_queue d = Some qo ->
  items (queues d qi) = PDict kv :: rest ->
  (forall a, dict_get "action" kv = Some a -> container a = true) ->
  plain (PDict kv) ->
  target (PDict kv) <> Some "__init__" ->
  exists r d2,
    _analyse (run fuel) (PDict kv) (taken qi rest d) = Ret r d2 /\
    iteration fuel d = Ret tt (added qo r d2) /\
    run (S fuel) d = run fuel (added qo r d2) /\
    (forall e d3,
        validates (PDict kv) = Ok true ->
        resolve_and_call (run fuel) (PDict kv) (taken qi rest d)
        = Raise e d3 ->
        r = PNone /\ d2 = log (EvPrint e) d3) /\
    (target (PDict kv) <> Some "quit" ->
     _running (added qo r d2) = true /\
     _input_queue (added qo r d2) = Some qi /\
     _output_queue (added qo r d2) = Some qo /\
     (qi <> qo -> items (queues (added qo r d2) qi) = rest)).
Proof.
  intros Hrun Hin Hout Hitems Hact Hplain Hinit.
  pose proof (_analyse_keeps (run fuel) _ Hplain Hinit (taken qi rest d))
    as Hk.
  assert (Hr : exists r d2,
             _analyse (run fuel) (PDict kv) (taken qi rest d) = Ret r d2).
  { rewrite _analyse_validates in Hk |- *.
    destruct (validates_dict kv Hact) as (b & Hb). rewrite Hb in Hk |- *.
    destruct b; [|eauto].
    pose proof (try_call_returns (run fuel) (PDict kv) (taken qi rest d)).
    destruct (try_call (run fuel) (PDict kv) (taken qi rest d));
      try contradiction; eauto. }
  destruct Hr as (r & d2 & Hr). rewrite Hr in Hk.
  assert (Ho : _output_queue d2 = Some qo).
  { destruct Hk as (_ & -> & _). exact Hout. }
  assert (Hit : iteration fuel d = Ret tt (added qo r d2)).
  { rewrite (iteration_taken _ _ _ _ _ Hin Hitems), Hr.
    unfold q_put. now rewrite Ho. }
  exists r, d2. split; [exact Hr|]. split; [exact Hit|].
  split; [now rewrite (run_S _ _ Hrun), Hit|]. split.
  - intros e d3 Hv Hraise.
    rewrite _analyse_validates, Hv in Hr.
    unfold try_call, try_except, bind in Hr. rewrite Hraise in Hr.
    simpl in Hr. injection Hr as <- <-. split; reflexivity.
  - intros Hquit.
    assert (Hord : ordinary (PDict kv)).
    { split; [exists kv; split; [reflexivity|exact Hact]|].
      intros n Hn. destruct (Hplain n Hn) as (N1 & N2).
      repeat split; trivial; intros ->; contradiction. }
    pose proof (_analyse_steady (run fuel) _ Hord (taken qi rest d)) as Hs.
    rewrite Hr in Hs. destruct Hs as (S1 & S2 & S3 & S4 & _).
    simpl. rewrite S1, S2, S3. simpl.
    repeat split; trivial.
    intros Hne. rewrite S4. simpl.
    destruct (Nat.eqb_spec qi qo); [contradiction|]. simpl.
    now rewrite Nat.eqb_refl.
Qed.

Lemma counted_step qi qo c rest r d d2 :
  items (queues d qi) = c :: rest ->
  queues d2 = queues (taken qi rest d) ->
  counted d -> counted (added qo r d2).
Proof.
  intros Hitems Hq Hc r'. pose proof (Hc qi) as Hqi. rewrite Hitems in Hqi.
  simpl in Hqi. unfold added. simpl. rewrite Hq. unfold taken. simpl.
  destruct (Nat.eqb_spec r' qo) as [->|Hne]; simpl.
  - destruct (Nat.eqb_spec qo qi) as [->|Hne']; simpl;
      rewrite length_app; simpl; [lia|].
    specialize (Hc qo). lia.
  - destruct (Nat.eqb_spec r' qi) as [->|Hne']; simpl; [lia|apply Hc].
Qed.

(** The loop on a queue of ordinary commands. *)
Lemma run_ordinary fuel : forall d qi qo,
  _running d = true ->
  _input_queue d = Some qi ->
  _output_queue d = Some qo ->
  qi <> qo ->
  Forall ordinary (items (queues d qi)) ->
  List.length (items (queues d qi)) < fuel ->
  exists d',
    run fuel d = Block d' /\
    _running d' = true /\
    _input_queue d' = Some qi /\ _output_queue d' = Some qo /\
    items (queues d' qi) = [] /\
    unfinished (queues d' qi) = unfinished (queues d qi) /\
    List.length (items (queues d' qo))
    = List.length (items (queues d qo)) + List.length (items (queues d qi)) /\
    (counted d -> counted d') /\
    (_filedesc d <> None -> _filedesc d' <> None).
Proof.
  induction fuel as [|fuel IH]; intros d qi qo Hrun Hin Hout Hne Hord Hlen;
    [lia|].
  rewrite (run_S _ _ Hrun).
  destruct (items (queues d qi)) as [|c rest] eqn:Hitems.
  { unfold iteration, bind, get_field. rewrite Hin, (q_get_empty _ _ Hitems).
    exists d. rewrite Hitems. simpl. repeat split; auto. }
  inversion Hord as [|? ? Hc Hrest]; subst.
  destruct (iteration_ordinary_step fuel d qi qo c rest Hin Hout Hitems Hc)
    as (r & d2 & Ha & Hs & Hit).
  rewrite Hit. destruct Hs as (S1 & S2 & S3 & S4 & S5).
  assert (Hq3i : queues (added qo r d2) qi
                 = mkQueue rest (unfinished (queues d qi))).
  { unfold added. rewrite queues_store_other by assumption.
    rewrite S4. unfold taken. now rewrite queues_store_same. }
  assert (Hq3o : queues (added qo r d2) qo = Queue_put r (queues d qo)).
  { unfold added. rewrite queues_store_same. rewrite S4.
    unfold taken. rewrite queues_store_other by congruence. reflexivity. }
  destruct (IH (added qo r d2) qi qo) as (d' & R1 & R2 & R3 & R4 & R5 & R6 & R7 & R8 & R9).
  - simpl. rewrite S3. exact Hrun.
  - simpl. rewrite S1. exact Hin.
  - simpl. rewrite S2. exact Hout.
  - exact Hne.
  - rewrite Hq3i. exact Hrest.
  - rewrite Hq3i. simpl in Hlen |- *. lia.
  - exists d'. rewrite Hq3i, Hq3o in *. simpl in *.
    repeat split; auto.
    + rewrite R7, length_app. simpl. lia.
    + intros Hcnt. apply R8.
      eapply counted_step; [exact Hitems | exact S4 | exact Hcnt].
Qed.

(** X1: on a running worker with distinct queues attached, a run given
    enough steps answers every ordinary command exactly once and then
    waits on the empty input queue: the input queue ends empty, the output
    queue has grown by as many values as there were commands, and the
    worker is still running.  It never calls [task_done]: the count of
    unfinished tasks of the input queue is what it was. *)
Theorem X1_run_answers_each_command_once fuel d qi qo :
  _running d = true ->
  _input_queue d = Some qi ->
  _output_queue d = Some qo ->
  qi <> qo ->
  Forall ordinary (items (queues d qi)) ->
  List.length (items (queues d qi)) < fuel ->
  exists d',
    run fuel d = Block d' /\
    _running d' = true /\
    items (queues d' qi) = [] /\
    unfinished (queues d' qi) = unfinished (queues d qi) /\
    List.length (items (queues d' qo))
    = List.length (items (queues d qo)) + List.length (items (queues d qi)).
Proof.
  intros Hrun Hin Hout Hne Hord Hlen.
  destruct (run_ordinary fuel d qi qo Hrun Hin Hout Hne Hord Hlen)
    as (d' & R1 & R2 & _ & _ & R5 & R6 & R7 & _).
  exists d'. auto.
Qed.

(** X2: one turn of the loop on an ordinary command keeps the count of
    every queue right: if each queue counts at least its waiting items as
    unfinished tasks before the turn, it does after it, whether or not the
    two queues are the same object. *)
Theorem X2_turn_keeps_queues_counted fuel d qi qo c rest :
  _input_queue d = Some qi ->
  _output_queue d = Some qo ->
  items (queues d qi) = c :: rest ->
  ordinary c ->
  counted d ->
  exists d', iteration fuel d = Ret tt d' /\ counted d'.
Proof.
  intros Hin Hout Hitems Hc Hcnt.
  destruct (iteration_ordinary_step fuel d qi qo c rest Hin Hout Hitems Hc)
    as (r & d2 & _ & (_ & _ & _ & S4 & _) & Hit).
  exists (added qo r d2). split; [exact Hit|].
  eapply counted_step; eassumption.
Qed.

(** What [__clear_queue] leaves of the queue: nothing, with one unfinished
    task less per item, or, when [task_done] raises, the items behind the
    one that was being marked. *)
Lemma clear_loop_exact fuel : forall qi d,
  List.length (items (queues d qi)) < fuel ->
  match clear_loop fuel (Some qi) d with
  | Ret _ d' =>
      queues d' qi
      = mkQueue [] (unfinished (queues d qi)
                    - List.length (items (queues d qi)))
  | Raise _ d' =>
      queues d' qi
      = mkQueue (skipn (S (unfinished (queues d qi))) (items (queues d qi))) 0
  | Block _ | Fuel => True
  end.
Proof.
  induction fuel as [|fuel IH]; intros qi d Hlen; [lia|].
  simpl. unfold bind at 1. unfold q_empty, Queue_empty.
  destruct (items (queues d qi)) as [|v rest] eqn:Hitems.
  - unfold ret. destruct (queues d qi) as [its u]. simpl in *. subst its.
    f_equal. lia.
  - unfold bind at 1. unfold try_except, bind at 1.
    unfold q_get_nowait, Queue_get_nowait. rewrite Hitems.
    unfold ret at 1.
    set (d1 := store qi {| items := rest; unfinished := unfinished (queues d qi) |} d).
    unfold bind at 1. unfold q_task_done, Queue_task_done.
    unfold d1 at 1. rewrite queues_store_same. cbn [unfinished items].
    destruct (unfinished (queues d qi)) as [|n] eqn:Hun.
    + rewrite queues_store_same. unfold d1. rewrite queues_store_same.
      reflexivity.
    + replace (items (queues d1 qi)) with rest
        by (unfold d1; now rewrite queues_store_same).
      set (d2 := store qi {| items := rest; unfinished := n |} d1).
      assert (Hq2 : queues d2 qi = {| items := rest; unfinished := n |})
        by apply queues_store_same.
      specialize (IH qi d2). rewrite Hq2 in IH. simpl in IH, Hlen.
      specialize (IH ltac:(lia)).
      destruct (clear_loop fuel (Some qi) d2) as [[] d'|e d'|d'|]; trivial.
Qed.

Lemma clear_queue_exact qi d :
  match __clear_queue (Some qi) d with
  | Ret _ d' =>
      queues d' qi
      = mkQueue [] (unfinished (queues d qi)
                    - List.length (items (queues d qi)))
  | Raise _ d' =>
      queues d' qi
      = mkQueue (skipn (S (unfinished (queues d qi))) (items (queues d qi))) 0
  | Block _ | Fuel => True
  end.
Proof. unfold __clear_queue. apply clear_loop_exact. lia. Qed.

(** [quit] on an object ready for it. *)
Lemma quit_ok d qi s s' :
  _input_queue d = Some qi ->
  _filedesc d = Some s ->
  Serial_close s = (Ok tt, s') ->
  List.length (items (queues d qi)) <= unfinished (queues d qi) ->
  exists d',
    quit d = Ret PNone d' /\
    queues d' qi
    = mkQueue [] (unfinished (queues d qi)
                  - List.length (items (queues d qi))) /\
    (forall r, r <> qi -> queues d' r = queues d r) /\
    trace d' = trace d ++ [EvClose] /\
    _running d' = false /\
    _filedesc d' = Some s' /\
    _input_queue d' = Some qi /\
    _output_queue d' = _output_queue d.
Proof.
  intros Hin Hfd Hclose Hlen. rewrite quit_cases, Hin.
  pose proof (clear_queue_spec qi (with_running false d)) as Hc.
  pose proof (clear_queue_exact qi (with_running false d)) as He.
  destruct (__clear_queue (Some qi) (with_running false d))
    as [[] d2|e d2|d2|]; try contradiction.
  - destruct Hc as (_ & _ & (_ & _ & S3 & S4 & S5 & S6 & S7 & S8)).
    unfold filedesc_close. rewrite S4. simpl in *. rewrite Hfd, Hclose.
    eexists. split; [reflexivity|]. simpl.
    repeat split; auto; try congruence.
  - destruct Hc as (_ & Hc & _). simpl in Hc. lia.
Qed.

(** X3: [quit], run with nobody else using the input queue meanwhile, on
    an object whose input queue is attached and counts every waiting item
    as an unfinished task: the queue ends empty and its count of
    unfinished tasks has gone down by exactly the number of items that
    were waiting, whether [close] then succeeds, raises, or has no port
    to be called on. *)
Theorem X3_quit_marks_discarded_done d qi :
  _input_queue d = Some qi ->
  List.length (items (queues d qi)) <= unfinished (queues d qi) ->
  exists d',
    final (quit d) = Some d' /\
    items (queues d' qi) = [] /\
    unfinished (queues d' qi)
    = unfinished (queues d qi) - List.length (items (queues d qi)).
Proof.
  intros Hin Hlen. rewrite quit_cases, Hin.
  pose proof (clear_queue_spec qi (with_running false d)) as Hc.
  pose proof (clear_queue_exact qi (with_running false d)) as He.
  destruct (__clear_queue (Some qi) (with_running false d))
    as [[] d2|e d2|d2|]; try contradiction.
  - simpl in He. unfold filedesc_close.
    destruct (_filedesc d2) as [s|];
      [|exists d2; rewrite He; repeat split].
    destruct (Serial_close s) as [[[]|e] s'];
      (eexists; split; [reflexivity|]); simpl; rewrite He; split; reflexivity.
  - destruct Hc as (_ & Hc & _). simpl in Hc. lia.
Qed.

(** X4: when the input queue holds more items than it counts unfinished
    tasks, [task_done] raises [ValueError] inside [quit]: the exception
    leaves [quit] before [close] is called, so the port stays open; the
    worker is told to stop, and the queue is left with the items behind
    the one being marked. *)
Theorem X4_quit_task_done_error_skips_close d qi :
  _input_queue d = Some qi ->
  unfinished (queues d qi) < List.length (items (queues d qi)) ->
  exists d',
    quit d = Raise ValueError d' /\
    trace d' = trace d /\
    _filedesc d' = _filedesc d /\
    _running d' = false /\
    items (queues d' qi)
    = skipn (S (unfinished (queues d qi))) (items (queues d qi)).
Proof.
  intros Hin Hlt. rewrite quit_cases, Hin.
  pose proof (clear_queue_spec qi (with_running false d)) as Hc.
  pose proof (clear_queue_exact qi (with_running false d)) as He.
  destruct (__clear_queue (Some qi) (with_running false d))
    as [[] d2|e d2|d2|]; try contradiction.
  - destruct Hc as (_ & Hc & _). simpl in Hc. lia.
  - destruct Hc as (-> & _ & (_ & _ & S3 & S4 & _ & _ & S7 & _)).
    exists d2. simpl in *. rewrite He. auto.
Qed.

(** X5: [quit] itself never waits: whatever the state of the object, it
    ends by returning [None] or by an exception, and it leaves the running
    flag off, so that a [run] that tests the flag afterwards returns at
    once without taking a command.  A worker that had already passed the
    test is not stopped: after a [quit] that returned, its turn goes to
    [get] and stays blocked there on the emptied queue. *)
Theorem X5_quit_clears_running_flag d :
  exists d',
    (quit d = Ret PNone d' \/ exists e, quit d = Raise e d') /\
    _running d' = false /\
    (forall fuel, run (S fuel) d' = Ret PNone d') /\
    (quit d = Ret PNone d' -> forall fuel, iteration fuel d' = Block d').
Proof.
  assert (H : exists d',
             (quit d = Ret PNone d' \/ exists e, quit d = Raise e d') /\
             _running d' = false /\
             (quit d = Ret PNone d' ->
              exists qi, _input_queue d' = Some qi /\
                         items (queues d' qi) = [])).
  { rewrite quit_cases.
    destruct (_input_queue d) as [qi|] eqn:Hin;
      [|eexists; split; [right; eexists; reflexivity
                        |split; [reflexivity|discriminate]]].
    pose proof (clear_queue_spec qi (with_running false d)) as Hc.
    destruct (__clear_queue (Some qi) (with_running false d))
      as [[] d2|e d2|d2|]; try contradiction.
    - destruct Hc as (He & _ & (_ & _ & S3 & _ & S5 & _)).
      unfold filedesc_close.
      destruct (_filedesc d2) as [s|];
        [|eexists; split; [right; eexists; reflexivity
                          |split; [exact S3|discriminate]]].
      destruct (Serial_close s) as [[[]|e] s'].
      + eexists; split; [left; reflexivity|]. split; [exact S3|].
        intros _. exists qi. split; [simpl; rewrite S5; exact Hin|exact He].
      + eexists; split; [right; eexists; reflexivity|].
        split; [exact S3|discriminate].
    - destruct Hc as (_ & _ & (_ & _ & S3 & _)).
      eexists; split; [right; eexists; reflexivity|].
      split; [exact S3|discriminate]. }
  destruct H as (d' & H1 & H2 & H3). exists d'.
  split; [exact H1|]. split; [exact H2|]. split.
  - intros fuel. now apply run_stopped.
  - intros Hq fuel. destruct (H3 Hq) as (qi & Hin & Hitems).
    unfold iteration, bind, get_field. rewrite Hin.
    now rewrite (q_get_empty _ _ Hitems).
Qed.

(** X6: a command whose content names [quit] (in any case), sent through
    the queue, stops the worker from the inside: [quit] discards the
    commands behind it and closes the port, the turn puts [None] for the
    command, and the loop returns.  The commands behind it are never
    written to the device nor answered. *)
Theorem X6_quit_command_stops_worker fuel d qi qo a content rest s s' :
  _running d = true ->
  _input_queue d = Some qi ->
  _output_queue d = Some qo ->
  qi <> qo ->
  items (queues d qi) = command a content :: rest ->
  accepted_action a ->
  lower content = "quit" ->
  _filedesc d = Some s ->
  Serial_close s = (Ok tt, s') ->
  List.length rest <= unfinished (queues d qi) ->
  exists d',
    run (S (S fuel)) d = Ret PNone d' /\
    _running d' = false /\
    items (queues d' qi) = [] /\
    items (queues d' qo) = items (queues d qo) ++ [PNone] /\
    trace d' = trace d ++ [EvClose].
Proof.
  intros Hrun Hin Hout Hne Hitems Ha Hl Hfd Hclose Hlen.
  destruct (quit_ok (taken qi rest d) qi s s') as
      (d2 & Q1 & Q2 & Q3 & Q4 & Q5 & Q6 & Q7 & Q8); trivial.
  { unfold taken. rewrite queues_store_same. exact Hlen. }
  assert (Han : _analyse (run (S fuel)) (command a content) (taken qi rest d)
                = Ret PNone d2).
  { rewrite _analyse_validates. unfold command at 1.
    rewrite (validates_accepted _ a) by (trivial || reflexivity).
    eapply try_call_ret; [reflexivity | reflexivity | | exact Q1].
    rewrite Hl. reflexivity. }
  rewrite (run_S _ _ Hrun), (iteration_taken _ _ _ _ _ Hin Hitems), Han.
  unfold q_put. rewrite Q8. simpl _output_queue. rewrite Hout.
  fold (added qo PNone d2).
  rewrite run_stopped by (simpl; exact Q5).
  eexists. split; [reflexivity|].
  split; [exact Q5|]. split; [|split].
  - unfold added. rewrite queues_store_other by assumption. now rewrite Q2.
  - unfold added. rewrite queues_store_same. simpl.
    rewrite Q3 by congruence. unfold taken.
    rewrite queues_store_other by congruence. reflexivity.
  - exact Q4.
Qed.

(** X7: serving then stopping.  After the worker has answered a queue of
    ordinary commands, [quit] finds nothing to discard: it closes the port
    (when [close] succeeds), returns, and marks nothing done, so every
    task the worker took is still counted unfinished on the input queue;
    the answers stay on the output queue. *)
Theorem X7_quit_after_serving fuel d qi qo :
  _running d = true ->
  _input_queue d = Some qi ->
  _output_queue d = Some qo ->
  qi <> qo ->
  Forall ordinary (items (queues d qi)) ->
  List.length (items (queues d qi)) < fuel ->
  _filedesc d <> None ->
  (forall s, exists s', Serial_close s = (Ok tt, s')) ->
  exists d' d'',
    run fuel d = Block d' /\
    quit d' = Ret PNone d'' /\
    trace d'' = trace d' ++ [EvClose] /\
    unfinished (queues d'' qi) = unfinished (queues d qi) /\
    items (queues d'' qo) = items (queues d' qo).
Proof.
  intros Hrun Hin Hout Hne Hord Hlen Hfd Hclose.
  destruct (run_ordinary fuel d qi qo Hrun Hin Hout Hne Hord Hlen)
    as (d' & R1 & R2 & R3 & R4 & R5 & R6 & R7 & R8 & R9).
  specialize (R9 Hfd).
  destruct (_filedesc d') as [s|] eqn:Hfd'; [|contradiction].
  destruct (Hclose s) as (s' & Hs).
  destruct (quit_ok d' qi s s' R3 Hfd' Hs) as
      (d'' & Q1 & Q2 & Q3 & Q4 & _); [rewrite R5; simpl; lia|].
  exists d', d''. repeat split; trivial.
  - rewrite Q2, R5, <- R6. simpl. lia.
  - now rewrite Q3 by congruence.
Qed.

(** X8: what an accepted descriptor gets when its content cannot be
    turned into a call: [None], after the exception is printed, and
    nothing else happens.  The exception is [KeyError] without the key
    "content", [AttributeError] for a content that has no [lower] or that
    names nothing, and [TypeError] for a [bytes] content and for a field or
    a method that takes an argument. *)
Theorem X8_unresolved_content_returns_None self_run kv d :
  validates (PDict kv) = Ok true ->
  (dict_get "content" kv = None ->
   _analyse self_run (PDict kv) d = Ret PNone (log (EvPrint KeyError) d)) /\
  (forall v,
      dict_get "content" kv = Some v -> py_lower v = Err AttributeError ->
      _analyse self_run (PDict kv) d
      = Ret PNone (log (EvPrint AttributeError) d)) /\
  (forall bs,
      dict_get "content" kv = Some (PBytes bs) ->
      _analyse self_run (PDict kv) d = Ret PNone (log (EvPrint TypeError) d)) /\
  (forall s,
      dict_get "content" kv = Some (PStr s) ->
      own (lower s) = None -> inherited (lower s) = None ->
      _analyse self_run (PDict kv) d
      = Ret PNone (log (EvPrint AttributeError) d)) /\
  (forall s a,
      dict_get "content" kv = Some (PStr s) ->
      own (lower s) = Some a -> not_callable_bare a = true ->
      _analyse self_run (PDict kv) d = Ret PNone (log (EvPrint TypeError) d)).
Proof.
  intros Hv. rewrite _analyse_validates, Hv.
  unfold try_call, try_except, resolve_and_call, bind. simpl py_getitem.
  repeat split.
  - intros ->. reflexivity.
  - intros v -> Hl. simpl. now rewrite Hl.
  - intros bs ->. reflexivity.
  - intros s -> Ho Hi. simpl. now rewrite Ho, Hi.
  - intros s a -> Ho Hn. simpl. rewrite Ho. simpl.
    destruct a; try discriminate Hn; reflexivity.
Qed.

(** X9: every member of [RelayStates] is within reach of a command and
    does what its value says: its value fits one byte, and an accepted
    descriptor whose content is the member's name, in any case, writes
    exactly that byte, sleeps, reads nothing, and returns what [write]
    returned. *)
Theorem X9_each_state_writes_its_byte (st : RelayStates.t) :
  exists b,
    struct_pack_B (RelayStates.value st) = Ok [b] /\
    Z.of_N (Byte.to_N b) = RelayStates.value st /\
    forall self_run a content d s v s1,
      accepted_action a ->
      lower content = lower (RelayStates.name st) ->
      _filedesc d = Some s ->
      Serial_write s [b] = (Ok v, s1) ->
      _analyse self_run (command a content) d
      = Ret v (after_command [b] s1 d).
Proof.
  destruct st; eexists; (split; [reflexivity|]); (split; [reflexivity|]);
    intros self_run a content d s v s1 Ha Hl Hfd Hw;
    rewrite _analyse_validates; unfold command at 1;
    rewrite (validates_accepted _ a) by (trivial || reflexivity);
    (eapply try_call_ret;
     [ reflexivity | reflexivity | simpl; rewrite Hl; reflexivity
     | eapply tmp_fct_ok; [reflexivity | eassumption | eassumption] ]).
Qed.

(** X10: before [setup] has opened the port (or after it has failed),
    every one of the eight protocol operations raises [AttributeError]
    when called directly, without any call to the outside; reached through
    a command, it is answered [None] after the exception is printed. *)
Theorem X10_no_port_no_exchange (x : Symbol) self_run a content d :
  _filedesc d = None ->
  accepted_action a ->
  lower content = lower (Symbol_name x) ->
  Symbol_call x d = Raise AttributeError d /\
  _analyse self_run (command a content) d
  = Ret PNone (log (EvPrint AttributeError) d).
Proof.
  intros Hfd Ha Hl.
  assert (Hc : Symbol_call x d = Raise AttributeError d).
  { destruct x as [[]|[]]; simpl;
      unfold tmp_fct, version, status, bind, filedesc_write; simpl;
      now rewrite Hfd. }
  split; [exact Hc|].
  rewrite _analyse_validates. unfold command at 1.
  rewrite (validates_accepted _ a) by (trivial || reflexivity).
  eapply try_call_raise with (f := Symbol_call x);
    [reflexivity | reflexivity | | exact Hc].
  simpl. rewrite Hl. destruct x as [[]|[]]; reflexivity.
Qed.

(** X11: when [write] raises, the exchange stops there, for each of the
    eight protocol operations: the call raises the same exception with
    the write as its only call to the device (no sleep, no read); reached
    through a command, the exception is printed and the answer is
    [None]. *)
Theorem X11_failed_write_ends_exchange (x : Symbol) self_run a d w s e s1 :
  encode x = Ok w ->
  _filedesc d = Some s ->
  Serial_write s w = (Err e, s1) ->
  accepted_action a ->
  Symbol_call x d
  = Raise e (log (EvWrite w) (with_filedesc (Some s1) d)) /\
  exists d',
    _analyse self_run (command a (Symbol_name x)) d = Ret PNone d' /\
    trace d' = trace d ++ [EvWrite w; EvPrint e].
Proof.
  intros Hw Hfd Hs Ha.
  assert (Hc : Symbol_call x d
               = Raise e (log (EvWrite w) (with_filedesc (Some s1) d))).
  { destruct x as [[]|[]]; injection Hw as <-; simpl;
      unfold tmp_fct, version, status, bind, filedesc_write; simpl;
      now rewrite Hfd, Hs. }
  split; [exact Hc|].
  rewrite _analyse_validates. unfold command at 1.
  rewrite (validates_accepted _ a) by (trivial || reflexivity).
  erewrite try_call_raise with (f := Symbol_call x);
    [ | reflexivity | reflexivity | destruct x as [[]|[]]; reflexivity
      | exact Hc ].
  eexists. split; [reflexivity|]. simpl. now rewrite <- app_assoc.
Qed.

Lemma lower_ascii_idempotent c : lower_ascii (lower_ascii c) = lower_ascii c.
Proof. destruct c as [[] [] [] [] [] [] [] []]; reflexivity. Qed.

Lemma lower_idempotent s : lower (lower s) = lower s.
Proof.
  induction s as [|c s IH]; simpl; [reflexivity|].
  now rewrite lower_ascii_idempotent, IH.
Qed.

Lemma own_clear_queue n :
  own n = Some a_clear_queue -> n = "_LibRelay02__clear_queue".
Proof.
  unfold own. simpl.
  repeat match goal with
         | |- context [String.eqb n ?k] =>
             destruct (String.eqb_spec n k) as [->|_];
             [simpl; intros H; first [discriminate H | reflexivity]|]
         end.
  intros H; discriminate H.
Qed.

(** X12: the content of a command is lowered before it is looked up, and
    lowering is idempotent, so no command can reach an attribute whose
    name has a capital letter: the private [__clear_queue], whose mangled
    name is [_LibRelay02__clear_queue], is out of reach of every
    command. *)
Theorem X12_private_clear_queue_out_of_reach s :
  lower (lower s) = lower s /\
  own (lower s) <> Some a_clear_queue /\
  forall self_run,
    getattr_self self_run (PStr "_LibRelay02__clear_queue")
    = Ok (call self_run a_clear_queue).
Proof.
  split; [apply lower_idempotent|]. split; [|reflexivity].
  intros H. apply own_clear_queue in H.
  pose proof (lower_idempotent s) as Hi. rewrite H in Hi.
  discriminate Hi.
Qed.

(** X13: the life of a worker.  On a new object, [setup] (the port opens),
    then the two queues attached, then [run]: every ordinary command
    waiting is answered once, and the worker ends waiting on the empty
    input queue, still running, with its port still set. *)
Theorem X13_setup_attach_run device bauds qs qi qo s fuel :
  serial_Serial device bauds PARITY_NONE 8 1 = Ok s ->
  qi <> qo ->
  Forall ordinary (items (qs qi)) ->
  List.length (items (qs qi)) < fuel ->
  exists d',
    (setup ;;; set_input_queue qi ;;; set_output_queue qo ;;; run fuel)
      (LibRelay02 device bauds qs) = Block d' /\
    items (queues d' qi) = [] /\
    List.length (items (queues d' qo))
    = List.length (items (qs qo)) + List.length (items (qs qi)) /\
    _running d' = true /\
    _filedesc d' <> None.
Proof.
  intros Hopen Hne Hord Hlen.
  unfold bind, setup. simpl. rewrite Hopen. simpl.
  set (d0 := mkDispatcher device bauds true (Some s) (Some qi) (Some qo) qs
                          [EvOpen device bauds PARITY_NONE 8 1]).
  destruct (run_ordinary fuel d0 qi qo) as
      (d' & R1 & R2 & R3 & R4 & R5 & R6 & R7 & R8 & R9); trivial.
  exists d'. split; [exact R1|]. split; [exact R5|]. split; [exact R7|].
  split; [exact R2|]. apply R9. discriminate.
Qed.

(** The number of bytes each query reads. *)
Definition response_size (q : RelayQueries.t) : Z :=
  match q with RelayQueries.VERSION => 2 | RelayQueries.STATUS => 1 end.

(** X14: when the [read] of a query raises, the query raises the same
    exception, and the request byte has already gone out: the calls made
    are the write, the sleep and the read of the expected size. *)
Theorem X14_failed_read_after_request (q : RelayQueries.t) d w s v s1 e s2 :
  encode (Query q) = Ok w ->
  _filedesc d = Some s ->
  Serial_write s w = (Ok v, s1) ->
  Serial_read s1 (response_size q) = (Err e, s2) ->
  exists d',
    Symbol_call (Query q) d = Raise e d' /\
    trace d' = trace d ++ [EvWrite w; EvSleep 100; EvRead (response_size q)] /\
    _filedesc d' = Some s2.
Proof.
  intros Hw Hfd Hs Hr.
  destruct q; injection Hw as <-; simpl in *;
    unfold version, status, bind; simpl lift; unfold ret at 1;
    rewrite (filedesc_write_ok _ _ _ _ _ Hfd Hs);
    unfold time_sleep, modify, filedesc_read; simpl; rewrite Hr;
    (eexists; split; [reflexivity|]); simpl;
    (split; [now rewrite <- !app_assoc | reflexivity]).
Qed.

(** X15: a command whose content names [__init__] (in any case) ends the
    worker.  The constructor runs again on the live object: the handle is
    dropped without [close] being called, both queue fields go back to
    [None], device and baud rate go back to their defaults; [put] then has
    no queue to call, and [AttributeError] leaves the loop with the
    command unanswered. *)
Theorem X15_init_command_ends_worker fuel d qi a content rest :
  _running d = true ->
  _input_queue d = Some qi ->
  items (queues d qi) = command a content :: rest ->
  accepted_action a ->
  lower content = "__init__" ->
  exists d',
    run (S fuel) d = Raise AttributeError d' /\
    _filedesc d' = None /\
    _input_queue d' = None /\ _output_queue d' = None /\
    _device d' = "/dev/ttyACM0" /\ _bauds d' = 115200%Z /\
    trace d' = trace d /\
    (forall r, r <> qi -> queues d' r = queues d r).
Proof.
  intros Hrun Hin Hitems Ha Hl.
  rewrite (run_S _ _ Hrun), (iteration_taken _ _ _ _ _ Hin Hitems).
  rewrite _analyse_validates. unfold command at 1.
  rewrite (validates_accepted _ a) by (trivial || reflexivity).
  erewrite try_call_ret;
    [ | reflexivity | reflexivity | simpl; rewrite Hl; reflexivity
      | reflexivity ].
  simpl. eexists. split; [reflexivity|]. simpl. repeat split.
  intros r Hr. destruct (Nat.eqb_spec r qi); [contradiction|reflexivity].
Qed.

Lemma validates_no_test c : container c = false -> validates c = Err TypeError.
Proof. destruct c; try discriminate; reflexivity. Qed.

(** X16: the commands that make [_analyse] raise.  A command with no
    membership test (None, a number, bytes, a queue), a string or a list
    in which "action" occurs (it cannot be indexed by a string), and a
    dict whose action has no membership test all raise [TypeError], before
    the [try] and without any change to the object; a string or a list in
    which "action" does not occur is turned away with [None]. *)
Theorem X16_commands_that_raise self_run d :
  (forall c, container c = false ->
             _analyse self_run c d = Raise TypeError d) /\
  (forall s,
      _analyse self_run (PStr s) d
      = if substring "action" s then Raise TypeError d else Ret PNone d) /\
  (forall l,
      _analyse self_run (PList l) d
      = if existsb (is_str "action") l then Raise TypeError d
        else Ret PNone d) /\
  (forall kv a,
      dict_get "action" kv = Some a -> container a = false ->
      _analyse self_run (PDict kv) d = Raise TypeError d).
Proof.
  repeat split.
  - intros c Hc. now rewrite _analyse_validates, validates_no_test.
  - intros s. rewrite _analyse_validates. unfold validates. simpl.
    now destruct (substring "action" s).
  - intros l. rewrite _analyse_validates. unfold validates. simpl.
    now destruct (existsb (is_str "action") l).
  - intros kv a Hd Hc. rewrite _analyse_validates. unfold validates.
    rewrite py_in_dict, Hd. simpl py_getitem. rewrite Hd.
    destruct a; try discriminate; reflexivity.
Qed.

(** X17: of the three members of [APIAction], UNKNOWN is the one a
    descriptor cannot use: a descriptor whose action is the name of a
    member goes on to the call when the member is SET_STATE or QUERY, and
    is turned away with [None], untouched, when it is UNKNOWN. *)
Theorem X17_unknown_action_member_is_turned_away
        (act : APIAction.t) self_run content d :
  _analyse self_run (command (APIAction.name act) content) d
  = match act with
    | APIAction.UNKNOWN => Ret PNone d
    | _ => try_call self_run (command (APIAction.name act) content) d
    end.
Proof. rewrite _analyse_validates. destruct act; reflexivity. Qed.

(** X18: one queue attached as both input and output.  The worker puts
    the answer of an ordinary command behind the commands that wait, and
    comes to take it as a command: when the answer is [None], bytes or a
    number, as the answers of the protocol operations are, that turn
    raises [TypeError] and the loop ends. *)
Theorem X18_shared_queue_feeds_answers_back fuel d q c :
  _running d = true ->
  _input_queue d = Some q ->
  _output_queue d = Some q ->
  items (queues d q) = [c] ->
  ordinary c ->
  exists r d1 d2,
    _analyse (run (S fuel)) c (taken q [] d) = Ret r d1 /\
    (container r = false ->
     run (S (S fuel)) d = Raise TypeError d2 /\
     items (queues d2 q) = []).
Proof.
  intros Hrun Hin Hout Hitems Ho.
  destruct (iteration_ordinary_step (S fuel) d q q c [] Hin Hout Hitems Ho)
    as (r & d1 & Ha & (S1 & S2 & S3 & S4 & _) & Hit).
  exists r, d1, (taken q [] (added q r d1)).
  split; [exact Ha|]. intros Hc.
  rewrite (run_S _ _ Hrun), Hit.
  assert (Hitems' : items (queues (added q r d1) q) = [r]).
  { unfold added. rewrite queues_store_same. simpl. rewrite S4.
    unfold taken. now rewrite queues_store_same. }
  assert (Hrun' : _running (added q r d1) = true).
  { simpl. rewrite S3. exact Hrun. }
  assert (Hin' : _input_queue (added q r d1) = Some q).
  { simpl. rewrite S1. exact Hin. }
  rewrite (run_S _ _ Hrun'), (iteration_taken _ _ _ _ _ Hin' Hitems').
  rewrite _analyse_validates, (validates_no_test _ Hc).
  split; [reflexivity|].
  unfold taken. now rewrite queues_store_same.
Qed.

(* ------------------------------------------------------------------ *)
(** ** [quit] while the worker is in a turn

    [run] and [quit] are called on two threads and use the same object.
    [quit] is cut here after its first statement, where the worker may
    run. *)

(** [self._running = False] *)
Definition quit_stop : M unit := modify (with_running false).

(** [self.__clear_queue(self._input_queue)] and [self._filedesc.close()] *)
Definition quit_drain_close : M pyval :=
  q <- get_field _input_queue ;;
  __clear_queue q ;;;
  filedesc_close ;;;
  ret PNone.

Lemma quit_split d : quit d = (quit_stop ;;; quit_drain_close) d.
Proof. reflexivity. Qed.

(** The worker has tested [while self._running]; [quit] sets the flag;
    the worker makes the turn it had decided on; [quit] drains the queue
    and closes the port. *)
Definition quit_across_turn (fuel : nat) : M pyval :=
  running <- get_field _running ;;
  quit_stop ;;;
  (if (running : bool) then iteration fuel else ret tt) ;;;
  quit_drain_close.

End Dispatcher.

Arguments dispatcher : clear implicits.
Arguments outcome : clear implicits.
Arguments M : clear implicits.
Arguments Ret {Serial A} a d.
Arguments Raise {Serial A} e d.
Arguments Block {Serial A} d.
Arguments Fuel {Serial A}.

(* ------------------------------------------------------------------ *)
(** ** The wire encoding *)

(** The byte values of an encoded symbol. *)
Definition wire_values (x : Symbol) : result (list Z) :=
  match encode x with
  | Ok bs => Ok (map (fun b => Z.of_N (Byte.to_N b)) bs)
  | Err e => Err e
  end.

(** C3: every symbol is encoded as its one documented byte, and no two
    symbols share a byte. *)
Theorem C3_encoding_fixed_and_injective :
  wire_values (State RelayStates.ALL_ON) = Ok [100%Z] /\
  wire_values (State RelayStates.ALL_OFF) = Ok [110%Z] /\
  wire_values (State RelayStates.ONE_ON) = Ok [101%Z] /\
  wire_values (State RelayStates.ONE_OFF) = Ok [111%Z] /\
  wire_values (State RelayStates.TWO_ON) = Ok [102%Z] /\
  wire_values (State RelayStates.TWO_OFF) = Ok [112%Z] /\
  wire_values (Query RelayQueries.VERSION) = Ok [90%Z] /\
  wire_values (Query RelayQueries.STATUS) = Ok [91%Z] /\
  (forall x y, encode x = encode y -> x = y) /\
  (forall x y, Symbol_value x = Symbol_value y -> x = y).
Proof.
  repeat split; try reflexivity.
  - intros [[]|[]] [[]|[]] H; try reflexivity; discriminate H.
  - intros [[]|[]] [[]|[]] H; try reflexivity; discriminate H.
Qed.

(** C3, at ALL_ON: the symbol encoded as ALL_ON is ALL_ON. *)
Lemma C3_encoding_witness :
  encode (State RelayStates.ALL_ON) = encode (State RelayStates.ALL_ON) /\
  State RelayStates.ALL_ON = State RelayStates.ALL_ON.
Proof.
  split; [reflexivity|].
  apply (proj1 (proj2 (proj2 (proj2 (proj2 (proj2 (proj2 (proj2
           (proj2 C3_encoding_fixed_and_injective))))))))).
  reflexivity.
Defined.

(* ------------------------------------------------------------------ *)
(** ** A test bench

    A relay board on [/dev/ttyACM0] that answers a read with the first
    bytes of 01 02; [write] returns the number of bytes written, as
    pyserial does; a closed port raises.  The worker has its port open,
    queue 0 attached as input and queue 1 as output.  None of the commands
    used below names an attribute of the base classes. *)
Module Bench.

Record port := mkPort { reply : list byte; is_open : bool }.

Definition open_port (device : string) (bauds : Z) (par : parity)
           (bytesize stopbits : Z) : result port :=
  if String.eqb device "/dev/ttyACM0" then Ok (mkPort [x01; x02] true)
  else Err SerialException.

Definition write (p : port) (data : list byte) : result pyval * port :=
  if is_open p then (Ok (PInt (Z.of_nat (List.length data))), p)
  else (Err SerialException, p).

Definition read (p : port) (size : Z) : result pyval * port :=
  if is_open p then (Ok (PBytes (firstn (Z.to_nat size) (reply p))), p)
  else (Err SerialException, p).

Definition close (p : port) : result unit * port :=
  (Ok tt, mkPort (reply p) false).

Definition no_base : string -> option (M port pyval) := fun _ => None.

Definition loop : nat -> M port pyval :=
  run open_port write read close no_base.

Definition turn : nat -> M port unit :=
  iteration open_port write read close no_base.

Definition analyse : M port pyval -> pyval -> M port pyval :=
  _analyse open_port write read close no_base.

(** Queue 0 holds [cs]; every other queue is empty. *)
Definition queues_with (cs : list pyval) : qref -> queue :=
  fun r => if Nat.eqb r 0 then mkQueue cs (List.length cs) else mkQueue [] 0.

Definition worker (cs : list pyval) : dispatcher port :=
  mkDispatcher "/dev/ttyACM0" 115200 true (Some (mkPort [x01; x02] true))
               (Some 0) (Some 1) (queues_with cs) [].

(** What an outcome shows: the exception, the value, the two queues and
    the calls made. *)
Definition raised {A} (o : outcome port A) : option exn :=
  match o with Raise e _ => Some e | _ => None end.

Definition returned {A} (o : outcome port A) : option A :=
  match o with Ret a _ => Some a | _ => None end.

Definition blocked {A} (o : outcome port A) : bool :=
  match o with Block _ => true | _ => false end.

Definition waiting {A} (o : outcome port A) : option (list pyval) :=
  option_map (fun d => items (queues d 0)) (final o).

Definition answers {A} (o : outcome port A) : option (list pyval) :=
  option_map (fun d => items (queues d 1)) (final o).

Definition calls {A} (o : outcome port A) : option (list event) :=
  option_map (fun d => trace d) (final o).

End Bench.

(* ------------------------------------------------------------------ *)
(** ** The claims on the bench *)

Import Bench.

Definition query_version : pyval :=
  command (APIAction.name APIAction.QUERY)
          (RelayQueries.name RelayQueries.VERSION).

Definition set_all_on : pyval :=
  command (APIAction.name APIAction.SET_STATE)
          (RelayStates.name RelayStates.ALL_ON).

Lemma plain_query_version : plain no_base query_version.
Proof.
  intros n H. injection H as <-. split; [discriminate|reflexivity].
Qed.

Lemma plain_set_all_on : plain no_base set_all_on.
Proof.
  intros n H. injection H as <-. split; [discriminate|reflexivity].
Qed.

Lemma plain_no_content : plain no_base (PDict []).
Proof. intros n H. discriminate H. Qed.

(** C1, as stated, fails: a descriptor without "action" and one whose
    action is "FOO" each get [None] put on the output queue; a descriptor
    whose action is the integer 5 raises [TypeError] out of the loop, and
    the command behind it stays in the input queue; and "MY_QUERY_X",
    which is neither name, has the version query answered. *)
Lemma C1_rejected_command_is_answered :
  answers (loop 2 (worker [PDict []])) = Some [PNone] /\
  answers (loop 2 (worker [command "FOO" "VERSION"])) = Some [PNone] /\
  (raised (loop 3 (worker [PDict [(PStr "action", PInt 5)]; query_version]))
   = Some TypeError /\
   waiting (loop 3 (worker [PDict [(PStr "action", PInt 5)]; query_version]))
   = Some [query_version]) /\
  answers (loop 2 (worker [command "MY_QUERY_X" "VERSION"]))
  = Some [PBytes [x01; x02]].
Proof. repeat split; reflexivity. Qed.

(** C1 (amended), on the bench: the descriptor [{}] ahead of a version
    query. *)
Lemma C1_rejected_command_witness :
  turn 1 (worker [PDict []; query_version])
  = Ret tt (added 1 PNone (taken 0 [query_version]
                                 (worker [PDict []; query_version]))) /\
  answers (loop 3 (worker [PDict []; query_version]))
  = Some [PNone; PBytes [x01; x02]].
Proof.
  split; [|reflexivity].
  apply (C1_rejected_command_puts_None
           open_port write read close no_base
           1 (worker [PDict []; query_version]) 0 1 (PDict [])
           [query_version]); try reflexivity.
  left. exists []. split; reflexivity.
Defined.

(** C2, as stated, fails: the command [None], the string "do this
    action" and a descriptor whose action is the integer 5 each raise
    [TypeError] out of the loop, which ends with the next command still
    waiting and nothing answered; the content "__INIT__" detaches the
    queues, so that [put] raises [AttributeError]; on the content "RUN"
    the turn stays blocked in the inner loop; and the single command
    "QUIT" ends the loop, the two commands behind it discarded. *)
Lemma C2_malformed_command_raises :
  (raised (loop 3 (worker [PNone; query_version])) = Some TypeError /\
   waiting (loop 3 (worker [PNone; query_version])) = Some [query_version] /\
   answers (loop 3 (worker [PNone; query_version])) = Some []) /\
  raised (loop 3 (worker [PStr "do this action"; query_version]))
  = Some TypeError /\
  raised (loop 3 (worker [PDict [(PStr "action", PInt 5)]; query_version]))
  = Some TypeError /\
  raised (loop 3 (worker [command "QUERY" "__INIT__"; query_version]))
  = Some AttributeError /\
  blocked (turn 5 (worker [command "QUERY" "RUN"])) = true /\
  (returned (loop 9 (worker [command "QUERY" "QUIT"; query_version;
                             set_all_on])) = Some PNone /\
   answers (loop 9 (worker [command "QUERY" "QUIT"; query_version;
                            set_all_on])) = Some [PNone] /\
   waiting (loop 9 (worker [command "QUERY" "QUIT"; query_version;
                            set_all_on])) = Some []).
Proof. repeat split; reflexivity. Qed.

Lemma plain_nothing : plain no_base (command "QUERY" "nothing").
Proof.
  intros n H. injection H as <-. split; [discriminate|reflexivity].
Qed.

(** C2 (amended), on the bench: a content that names nothing, ahead of a
    version query. *)
Lemma C2_well_formed_command_witness :
  exists r d2,
    analyse (loop 1) (command "QUERY" "nothing")
            (taken 0 [query_version]
                   (worker [command "QUERY" "nothing"; query_version]))
    = Ret r d2 /\
    turn 1 (worker [command "QUERY" "nothing"; query_version])
    = Ret tt (added 1 r d2) /\
    loop 2 (worker [command "QUERY" "nothing"; query_version])
    = loop 1 (added 1 r d2) /\
    (r = PNone /\
     d2 = log (EvPrint AttributeError)
              (taken 0 [query_version]
                     (worker [command "QUERY" "nothing"; query_version]))) /\
    (_running (added 1 r d2) = true /\
     _input_queue (added 1 r d2) = Some 0 /\
     _output_queue (added 1 r d2) = Some 1 /\
     items (queues (added 1 r d2) 0) = [query_version]).
Proof.
  destruct (C2_well_formed_command_never_raises
              open_port write read close no_base
              1 (worker [command "QUERY" "nothing"; query_version]) 0 1
              [(PStr "action", PStr "QUERY");
               (PStr "content", PStr "nothing")] [query_version]
              eq_refl eq_refl eq_refl eq_refl)
    as (r & d2 & H1 & H2 & H3 & H4 & H5).
  - intros a H. injection H as <-. reflexivity.
  - exact plain_nothing.
  - discriminate.
  - exists r, d2. split; [exact H1|]. split; [exact H2|]. split; [exact H3|].
    split.
    + exact (H4 AttributeError _ eq_refl eq_refl).
    + destruct H5 as (A & B & C & D); [discriminate|].
      repeat split; trivial. apply D. discriminate.
Defined.



(** C6, as stated, fails: the content "RUN" makes the worker enter its
    loop again inside [_analyse]; the inner loop answers the version query
    and the "QUIT" that follow before the outer turn puts the result of
    "RUN", which is [None].  The first value on the output queue is the
    result of the second command. *)
Lemma C6_reentered_loop_answers_out_of_order :
  answers (loop 6 (worker [command "QUERY" "RUN"; query_version;
                           command "QUERY" "QUIT"]))
  = Some [PBytes [x01; x02]; PNone; PNone] /\
  returned (analyse (loop 5) (command "QUERY" "RUN")
                    (taken 0 [query_version; command "QUERY" "QUIT"]
                           (worker [command "QUERY" "RUN"; query_version;
                                    command "QUERY" "QUIT"])))
  = Some PNone.
Proof. split; reflexivity. Qed.

(** C6 (amended), on the bench: three commands, three answers. *)
Lemma C6_outputs_follow_witness :
  exists l dl df,
    served open_port write read close no_base
           (worker [query_version; set_all_on; PDict []]) l dl /\
    (exists rest,
        items (queues (worker [query_version; set_all_on; PDict []]) 0)
        = map fst l ++ rest) /\
    final (loop 4 (worker [query_version; set_all_on; PDict []])) = Some df /\
    items (queues df 1)
    = items (queues (worker [query_version; set_all_on; PDict []]) 1)
      ++ map snd l.
Proof.
  refine (C6_outputs_follow_consumption
            open_port write read close no_base
            4 (worker [query_version; set_all_on; PDict []]) 0 1
            eq_refl eq_refl _ _ _).
  - discriminate.
  - apply Forall_cons; [apply plain_query_version|].
    apply Forall_cons; [apply plain_set_all_on|].
    apply Forall_cons; [apply plain_no_content|apply Forall_nil].
  - simpl. lia.
Defined.

(** C7, on the bench: the board is on [/dev/ttyACM0] and nowhere else. *)
Lemma C7_setup_witness :
  (exists d',
      setup open_port (LibRelay02 "/dev/ttyACM0" 115200 (queues_with []))
      = Ret (PBool true) d' /\
      _filedesc d' = Some (mkPort [x01; x02] true) /\
      trace d' = [EvOpen "/dev/ttyACM0" 115200 PARITY_NONE 8 1]) /\
  (exists d',
      setup open_port (LibRelay02 "/dev/ttyUSB7" 9600 (queues_with []))
      = Ret (PBool false) d' /\
      _filedesc d' = None /\
      trace d' = [EvOpen "/dev/ttyUSB7" 9600 PARITY_NONE 8 1;
                  EvPrint SerialException]).
Proof.
  split.
  - exact (proj1 (C7_setup_reports_open open_port
                    (LibRelay02 "/dev/ttyACM0" 115200 (queues_with [])))
                 (mkPort [x01; x02] true) eq_refl).
  - exact (proj1 (proj2 (C7_setup_reports_open open_port
                    (LibRelay02 "/dev/ttyUSB7" 9600 (queues_with []))))
                 SerialException eq_refl).
Defined.

(** C8, as stated, fails when a turn of the worker overlaps [quit].  The
    worker has tested [while self._running] with two commands waiting;
    [quit] sets the flag; the worker makes its turn; [quit] drains the
    queue, closes the port and returns [None].  The version query, which
    had not been dispatched when [quit] was called, has been written to
    the device and answered on the output queue. *)
Lemma C8_overlapping_turn_executes_pending :
  returned (quit_across_turn open_port write read close no_base 1
              (worker [query_version; set_all_on])) = Some PNone /\
  calls (quit_across_turn open_port write read close no_base 1
           (worker [query_version; set_all_on]))
  = Some [EvWrite [x5a]; EvSleep 100; EvRead 2; EvClose] /\
  answers (quit_across_turn open_port write read close no_base 1
             (worker [query_version; set_all_on]))
  = Some [PBytes [x01; x02]] /\
  waiting (quit_across_turn open_port write read close no_base 1
             (worker [query_version; set_all_on])) = Some [].
Proof. repeat split; reflexivity. Qed.

(** C8, on the bench: [quit] with two commands waiting. *)
Lemma C8_quit_witness :
  exists d', quit close (worker [query_version; set_all_on]) = Ret PNone d'.
Proof.
  refine (proj1 (C8_quit_discards_pending close
                   (worker [query_version; set_all_on]))
                0 (mkPort [x01; x02] true) (mkPort [x01; x02] false)
                eq_refl eq_refl eq_refl _).
  simpl. lia.
Defined.

(** C9, on the bench: "My_Query" and "QUERY_ALL" with the same content. *)
Lemma C9_action_content_witness :
  analyse (loop 0) (command "My_QUERY" "version") (worker [])
  = analyse (loop 0) (command "QUERY_ALL" "VeRsIoN") (worker []) /\
  returned (analyse (loop 0) (command "SET_STATE" "VERSION") (worker []))
  = Some (PBytes [x01; x02]).
Proof.
  split.
  - transitivity (analyse (loop 0) (command "My_QUERY" "VeRsIoN") (worker [])).
    + refine (proj1 (proj2 (proj2
                (C9_action_not_tied_to_content
                   open_port write read close no_base (loop 0) (worker []))))
                "My_QUERY" "version" "VeRsIoN" _ eq_refl).
      right. reflexivity.
    + refine (proj1 (proj2
                (C9_action_not_tied_to_content
                   open_port write read close no_base (loop 0) (worker [])))
                [(PStr "action", PStr "My_QUERY");
                 (PStr "content", PStr "VeRsIoN")]
                [(PStr "action", PStr "QUERY_ALL");
                 (PStr "content", PStr "VeRsIoN")]
                "My_QUERY" "QUERY_ALL" eq_refl _ eq_refl _ eq_refl);
        right; reflexivity.
  - reflexivity.
Defined.

(** C10, on the bench: [quit] on a new object. *)
Lemma C10_quit_witness :
  exists e d',
    quit close (LibRelay02 "/dev/ttyACM0" 115200 (queues_with []))
    = Raise e d'.
Proof.
  exact (proj1 (C10_quit_needs_setup_and_queue close
                  (LibRelay02 "/dev/ttyACM0" 115200 (queues_with []))
                  (or_introl eq_refl))).
Defined.

(* ------------------------------------------------------------------ *)
(** ** The further properties on the bench *)

Definition port_open : port := mkPort [x01; x02] true.
Definition port_closed : port := mkPort [x01; x02] false.

(** A port on which nothing can be read. *)
Definition deaf_read (p : port) (size : Z) : result pyval * port :=
  (Err SerialException, p).

Lemma ordinary_query_version : ordinary no_base query_version.
Proof.
  split.
  - eexists. split; [reflexivity|].
    intros a H. injection H as <-. reflexivity.
  - intros n H. injection H as <-.
    repeat split; try discriminate.
Qed.

Lemma ordinary_set_all_on : ordinary no_base set_all_on.
Proof.
  split.
  - eexists. split; [reflexivity|].
    intros a H. injection H as <-. reflexivity.
  - intros n H. injection H as <-.
    repeat split; try discriminate.
Qed.

Lemma ordinary_no_content : ordinary no_base (PDict []).
Proof.
  split.
  - eexists. split; [reflexivity|]. intros a H. discriminate H.
  - intros n H. discriminate H.
Qed.

Lemma counted_worker cs : counted (worker cs).
Proof.
  intros r. simpl. unfold queues_with.
  destruct (Nat.eqb r 0); simpl; lia.
Qed.

(** X1, on the bench: three commands, three answers, then the wait. *)
Lemma X1_run_answers_witness :
  exists d',
    loop 4 (worker [query_version; set_all_on; PDict []]) = Block d' /\
    _running d' = true /\
    items (queues d' 0) = [] /\
    unfinished (queues d' 0) = 3 /\
    List.length (items (queues d' 1)) = 0 + 3.
Proof.
  refine (X1_run_answers_each_command_once
            open_port write read close no_base
            4 (worker [query_version; set_all_on; PDict []]) 0 1
            eq_refl eq_refl eq_refl _ _ _).
  - discriminate.
  - apply Forall_cons; [apply ordinary_query_version|].
    apply Forall_cons; [apply ordinary_set_all_on|].
    apply Forall_cons; [apply ordinary_no_content|apply Forall_nil].
  - simpl. lia.
Defined.

(** X2, on the bench: a turn on the version query. *)
Lemma X2_turn_counted_witness :
  exists d', turn 1 (worker [query_version]) = Ret tt d' /\ counted d'.
Proof.
  exact (X2_turn_keeps_queues_counted
           open_port write read close no_base
           1 (worker [query_version]) 0 1 query_version []
           eq_refl eq_refl eq_refl ordinary_query_version
           (counted_worker [query_version])).
Defined.

(** X3, on the bench: two commands waiting, two tasks marked done. *)
Lemma X3_quit_marks_witness :
  exists d',
    final (quit close (worker [query_version; set_all_on])) = Some d' /\
    items (queues d' 0) = [] /\
    unfinished (queues d' 0) = 2 - 2.
Proof.
  refine (X3_quit_marks_discarded_done close
            (worker [query_version; set_all_on]) 0 eq_refl _).
  simpl. lia.
Defined.

(** A worker whose input queue holds two commands and counts one task. *)
Definition miscounted : dispatcher port :=
  store 0 (mkQueue [query_version; set_all_on] 1) (worker []).

(** X4, on the bench: the second [task_done] raises. *)
Lemma X4_quit_task_done_witness :
  exists d',
    quit close miscounted = Raise ValueError d' /\
    trace d' = trace miscounted /\
    _filedesc d' = _filedesc miscounted /\
    _running d' = false /\
    items (queues d' 0) = skipn 2 [query_version; set_all_on].
Proof.
  refine (X4_quit_task_done_error_skips_close close miscounted 0 eq_refl _).
  simpl. lia.
Defined.

(** X5, on the bench: after [quit] has returned, the turn of a worker
    that had passed its test blocks in [get]. *)
Lemma X5_quit_clears_running_witness :
  exists d',
    quit close (worker [query_version; set_all_on]) = Ret PNone d' /\
    _running d' = false /\
    loop 1 d' = Ret PNone d' /\
    turn 1 d' = Block d'.
Proof.
  destruct (X5_quit_clears_running_flag
              open_port write read close no_base
              (worker [query_version; set_all_on]))
    as (d' & H1 & H2 & H3 & H4).
  destruct H1 as [H1|(e & H1)]; [|discriminate H1].
  exists d'. split; [exact H1|]. split; [exact H2|].
  split; [exact (H3 0)|exact (H4 H1 1)].
Defined.

(** X6, on the bench: "Quit" ahead of a version query. *)
Lemma X6_quit_command_witness :
  exists d',
    loop 2 (worker [command "QUERY" "Quit"; query_version]) = Ret PNone d' /\
    _running d' = false /\
    items (queues d' 0) = [] /\
    items (queues d' 1) = [] ++ [PNone] /\
    trace d' = [] ++ [EvClose].
Proof.
  refine (X6_quit_command_stops_worker
            open_port write read close no_base
            0 (worker [command "QUERY" "Quit"; query_version]) 0 1
            "QUERY" "Quit" [query_version] port_open port_closed
            eq_refl eq_refl eq_refl _ eq_refl _ eq_refl eq_refl eq_refl _).
  - discriminate.
  - right. reflexivity.
  - simpl. lia.
Defined.

(** X7, on the bench: two commands served, then [quit]. *)
Lemma X7_quit_after_serving_witness :
  exists d' d'',
    loop 3 (worker [query_version; set_all_on]) = Block d' /\
    quit close d' = Ret PNone d'' /\
    trace d'' = trace d' ++ [EvClose] /\
    unfinished (queues d'' 0) = 2 /\
    items (queues d'' 1) = items (queues d' 1).
Proof.
  refine (X7_quit_after_serving
            open_port write read close no_base
            3 (worker [query_version; set_all_on]) 0 1
            eq_refl eq_refl eq_refl _ _ _ _
            (fun s => ex_intro _ (mkPort (reply s) false) eq_refl)).
  - discriminate.
  - apply Forall_cons; [apply ordinary_query_version|].
    apply Forall_cons; [apply ordinary_set_all_on|apply Forall_nil].
  - simpl. lia.
  - discriminate.
Defined.

(** X8, on the bench: a descriptor with an action and no content. *)
Lemma X8_unresolved_content_witness :
  analyse (loop 0) (PDict [(PStr "action", PStr "QUERY")]) (worker [])
  = Ret PNone (log (EvPrint KeyError) (worker [])).
Proof.
  exact (proj1 (X8_unresolved_content_returns_None
                  open_port write read close no_base
                  (loop 0) [(PStr "action", PStr "QUERY")] (worker [])
                  eq_refl)
               eq_refl).
Defined.

(** X9, on the bench: "two_off" writes the byte 112. *)
Lemma X9_each_state_witness :
  analyse (loop 0) (command "SET_STATE" "two_off") (worker [])
  = Ret (PInt 1) (after_command [x70] port_open (worker [])).
Proof.
  destruct (X9_each_state_writes_its_byte
              open_port write read close no_base RelayStates.TWO_OFF)
    as (b & H1 & _ & H3).
  injection H1 as <-.
  apply (H3 (loop 0) "SET_STATE" "two_off" (worker []) port_open
            (PInt 1) port_open); try reflexivity.
  left. reflexivity.
Defined.

(** X10, on the bench: the status query on a new object. *)
Lemma X10_no_port_witness :
  Symbol_call write read (Query RelayQueries.STATUS)
              (LibRelay02 "/dev/ttyACM0" 115200 (queues_with []))
  = Raise AttributeError (LibRelay02 "/dev/ttyACM0" 115200 (queues_with [])) /\
  analyse (loop 0) (command "QUERY" "status")
          (LibRelay02 "/dev/ttyACM0" 115200 (queues_with []))
  = Ret PNone (log (EvPrint AttributeError)
                   (LibRelay02 "/dev/ttyACM0" 115200 (queues_with []))).
Proof.
  refine (X10_no_port_no_exchange
            open_port write read close no_base
            (Query RelayQueries.STATUS) (loop 0) "QUERY" "status"
            (LibRelay02 "/dev/ttyACM0" 115200 (queues_with []))
            eq_refl _ eq_refl).
  right. reflexivity.
Defined.

(** A worker whose port has been closed. *)
Definition closed_worker : dispatcher port :=
  with_filedesc (Some port_closed) (worker []).

(** X11, on the bench: ALL_ON on a closed port. *)
Lemma X11_failed_write_witness :
  Symbol_call write read (State RelayStates.ALL_ON) closed_worker
  = Raise SerialException
          (log (EvWrite [x64])
               (with_filedesc (Some port_closed) closed_worker)) /\
  exists d',
    analyse (loop 0) (command "SET_STATE" "ALL_ON") closed_worker
    = Ret PNone d' /\
    trace d' = trace closed_worker ++ [EvWrite [x64]; EvPrint SerialException].
Proof.
  refine (X11_failed_write_ends_exchange
            open_port write read close no_base
            (State RelayStates.ALL_ON) (loop 0) "SET_STATE" closed_worker
            [x64] port_closed SerialException port_closed
            eq_refl eq_refl eq_refl _).
  left. reflexivity.
Defined.

(** X13, on the bench: from the constructor to the wait. *)
Lemma X13_setup_attach_run_witness :
  exists d',
    bind (setup open_port)
         (fun _ => bind (set_input_queue 0)
         (fun _ => bind (set_output_queue 1)
         (fun _ => loop 2)))
         (LibRelay02 "/dev/ttyACM0" 115200 (queues_with [query_version]))
    = Block d' /\
    items (queues d' 0) = [] /\
    List.length (items (queues d' 1)) = 0 + 1 /\
    _running d' = true /\
    _filedesc d' <> None.
Proof.
  refine (X13_setup_attach_run
            open_port write read close no_base
            "/dev/ttyACM0" 115200 (queues_with [query_version]) 0 1
            port_open 2 eq_refl _ _ _).
  - discriminate.
  - apply Forall_cons; [apply ordinary_query_version|apply Forall_nil].
  - simpl. lia.
Defined.

(** X14, on the bench: the version query on a port that cannot be read. *)
Lemma X14_failed_read_witness :
  exists d',
    Symbol_call write deaf_read (Query RelayQueries.VERSION) (worker [])
    = Raise SerialException d' /\
    trace d' = trace (worker []) ++ [EvWrite [x5a]; EvSleep 100; EvRead 2] /\
    _filedesc d' = Some port_open.
Proof.
  exact (X14_failed_read_after_request write deaf_read
           RelayQueries.VERSION (worker []) [x5a] port_open (PInt 1)
           port_open SerialException port_open
           eq_refl eq_refl eq_refl eq_refl).
Defined.

(** X15, on the bench: "__INIT__" ahead of a version query. *)
Lemma X15_init_command_witness :
  exists d',
    loop 2 (worker [command "QUERY" "__INIT__"; query_version])
    = Raise AttributeError d' /\
    _filedesc d' = None /\
    _input_queue d' = None /\ _output_queue d' = None /\
    _device d' = "/dev/ttyACM0" /\ _bauds d' = 115200%Z /\
    trace d' = [] /\
    (forall r, r <> 0 ->
               queues d' r
               = queues (worker [command "QUERY" "__INIT__"; query_version]) r).
Proof.
  refine (X15_init_command_ends_worker
            open_port write read close no_base
            1 (worker [command "QUERY" "__INIT__"; query_version]) 0
            "QUERY" "__INIT__" [query_version]
            eq_refl eq_refl eq_refl _ eq_refl).
  right. reflexivity.
Defined.

(** X16, on the bench: the command [None]. *)
Lemma X16_commands_that_raise_witness :
  analyse (loop 0) PNone (worker []) = Raise TypeError (worker []).
Proof.
  exact (proj1 (X16_commands_that_raise
                  open_port write read close no_base (loop 0) (worker []))
               PNone eq_refl).
Defined.

(** A worker with queue 0 attached as input and as output. *)
Definition shared_worker : dispatcher port :=
  with_output_queue (Some 0) (worker [PDict []]).

(** X18, on the bench: the answer [None] comes back as a command. *)
Lemma X18_shared_queue_witness :
  raised (loop 2 shared_worker) = Some TypeError.
Proof.
  destruct (X18_shared_queue_feeds_answers_back
              open_port write read close no_base
              0 shared_worker 0 (PDict [])
              eq_refl eq_refl eq_refl eq_refl ordinary_no_content)
    as (r & d1 & d2 & Ha & H).
  injection Ha as <- _.
  destruct (H eq_refl) as (Hr & _).
  exact (f_equal raised Hr).
Defined.
